(** * Diff-position mapping of the code review agent

    Shallow embedding of [CodeReviewAgent._calculate_diff_position] and of
    the comment-building loop of [CodeReviewAgent.post_line_comments]
    (scripts/code_review_agent.py).

    Python [str] values are modelled as [string]: each [ascii] character
    stands for the code point of the same number (0..255). *)

From Stdlib Require Import String Ascii ZArith List Bool Lia.
Import ListNotations.

Local Open Scope Z_scope.

(** ** Python exceptions and results *)

Inductive py_exc := ValueError | TypeError.

Inductive py_result (A : Type) :=
| Ok (a : A)
| Err (e : py_exc).
Arguments Ok {A} a.
Arguments Err {A} e.

(** ** Python string helpers *)

(** [s.startswith(p)] *)
Fixpoint startswith (p s : string) : bool :=
  match p, s with
  | EmptyString, _ => true
  | String a p', String b s' => Ascii.eqb a b && startswith p' s'
  | String _ _, EmptyString => false
  end.

(** [s.split(c)] for a one-character separator. *)
Fixpoint split_char (c : ascii) (s : string) : list string :=
  match s with
  | EmptyString => [EmptyString]
  | String a r =>
      let rest := split_char c r in
      if Ascii.eqb a c then EmptyString :: rest
      else match rest with
           | [] => [String a EmptyString]
           | h :: t => String a h :: t
           end
  end.

(** Characters for which [str.isspace] holds, below code point 256. *)
Definition is_py_space (a : ascii) : bool :=
  let n := nat_of_ascii a in
  ((9 <=? n) && (n <=? 13))%nat || ((28 <=? n) && (n <=? 32))%nat
  || (n =? 133)%nat || (n =? 160)%nat.

(** [s.split()]: split on runs of whitespace, dropping empty fields;
    [cur] holds the current field, reversed. *)
Fixpoint split_ws_acc (s : string) (cur : list ascii) : list string :=
  match s with
  | EmptyString =>
      match cur with [] => [] | _ => [string_of_list_ascii (rev cur)] end
  | String a r =>
      if is_py_space a then
        match cur with
        | [] => split_ws_acc r []
        | _ => string_of_list_ascii (rev cur) :: split_ws_acc r []
        end
      else split_ws_acc r (a :: cur)
  end.

Definition split_ws (s : string) : list string := split_ws_acc s [].

(** [s[n:]] *)
Fixpoint drop_chars (n : nat) (s : string) : string :=
  match n, s with
  | O, _ => s
  | S n', String _ s' => drop_chars n' s'
  | S _, EmptyString => EmptyString
  end.

(** ** The regular expression [\+(\d+)] *)

(** For a [str] pattern, [\d] matches the Unicode decimal digits; below
    code point 256 these are exactly ['0'..'9']. *)
Definition is_digit (a : ascii) : bool :=
  let n := nat_of_ascii a in ((48 <=? n) && (n <=? 57))%nat.

(** The greedy [(\d+)] group: the longest run of digits at the front. *)
Fixpoint digit_run (s : string) : string :=
  match s with
  | String a r => if is_digit a then String a (digit_run r) else EmptyString
  | EmptyString => EmptyString
  end.

Definition starts_with_digit (s : string) : bool :=
  match s with String a _ => is_digit a | EmptyString => false end.

(** [re.search(r'\+(\d+)', s)]: the group of the leftmost match. *)
Fixpoint search_plus_digits (s : string) : option string :=
  match s with
  | EmptyString => None
  | String a r =>
      if Ascii.eqb a "+"%char && starts_with_digit r then Some (digit_run r)
      else search_plus_digits r
  end.

Fixpoint digits_value_acc (s : string) (acc : Z) : Z :=
  match s with
  | EmptyString => acc
  | String a r =>
      digits_value_acc r (acc * 10 + Z.of_nat (nat_of_ascii a - 48))
  end.

Section Resolver.

(** [sys.get_int_max_str_digits()]: [int()] of a decimal string with more
    digits than this raises [ValueError] (Python 3.11 and later, default
    4300); [0] means no limit, as in older interpreters. *)
Variable int_max_str_digits : nat.

(** [int(ds)] for a non-empty run of decimal digits [ds]. *)
Definition py_int_of_digits (ds : string) : py_result Z :=
  if negb (int_max_str_digits =? 0)%nat
     && (int_max_str_digits <? String.length ds)%nat
  then Err ValueError
  else Ok (digits_value_acc ds 0).

(** ** The scan of [_calculate_diff_position] *)

Record scan_state := {
  current_file : option string;
  in_target_file : bool;
  hunk_position : Z;
  new_file_line : Z
}.

Definition init_state : scan_state :=
  {| current_file := None; in_target_file := false;
     hunk_position := 0; new_file_line := 0 |}.

(** One iteration of the [for line in lines] loop: either the loop goes
    on with a new state, or it [return]s a position, or it raises. *)
Inductive step_result :=
| Continue (st : scan_state)
| Return (p : Z)
| Raise (e : py_exc).

(** The path of a [diff --git] header: [parts[3]] without its [b/]. *)
Definition header_path (line : string) : option string :=
  let parts := split_ws line in
  if (4 <=? List.length parts)%nat then
    let new_file_path := nth 3 parts EmptyString in
    if startswith "b/" new_file_path then Some (drop_chars 2 new_file_path)
    else Some new_file_path
  else None.

(** The condition under which a body line is counted. *)
Definition is_counted (line : string) : bool :=
  startswith "+" line
  || (startswith " " line && (1 <? String.length line)%nat
      && negb (startswith "---" line) && negb (startswith "+++" line)).

Definition step (file_path : string) (target_line : Z)
    (st : scan_state) (line : string) : step_result :=
  if startswith "diff --git" line then
    match header_path line with
    | Some cur =>
        Continue {| current_file := Some cur;
                    in_target_file := String.eqb cur file_path;
                    hunk_position := 0; new_file_line := 0 |}
    | None => Continue st
    end
  else if startswith "@@" line then
    if in_target_file st then
      match search_plus_digits line with
      | Some ds =>
          match py_int_of_digits ds with
          | Ok n =>
              Continue {| current_file := current_file st;
                          in_target_file := true;
                          hunk_position := 0; new_file_line := n - 1 |}
          | Err e => Raise e
          end
      | None =>
          Continue {| current_file := current_file st;
                      in_target_file := true;
                      hunk_position := 0; new_file_line := new_file_line st |}
      end
    else Continue st
  else if in_target_file st then
    if is_counted line then
      let hp := hunk_position st + 1 in
      let nfl := new_file_line st + 1 in
      if nfl =? target_line then Return hp
      else Continue {| current_file := current_file st;
                       in_target_file := true;
                       hunk_position := hp; new_file_line := nfl |}
    else Continue st   (* deletions, [---], [index], ... *)
  else Continue st.

Fixpoint scan (file_path : string) (target_line : Z)
    (st : scan_state) (lines : list string) : py_result (option Z) :=
  match lines with
  | [] => Ok None
  | line :: rest =>
      match step file_path target_line st line with
      | Continue st' => scan file_path target_line st' rest
      | Return p => Ok (Some p)
      | Raise e => Err e
      end
  end.

(** What the function writes to [self.logger]. *)
Inductive log_entry :=
| LogDebugNotFound (target_line : Z) (file_path : string)
| LogWarnError (e : py_exc).

(** The body of the method: the [try] block and its [except Exception]
    handler, with the messages logged on the way. *)
Definition calc_logged (diff file_path : string) (target_line : Z)
    : option Z * list log_entry :=
  match scan file_path target_line init_state (split_char "010"%char diff) with
  | Ok (Some p) => (Some p, [])
  | Ok None => (None, [LogDebugNotFound target_line file_path])
  | Err e => (None, [LogWarnError e])
  end.

Definition _calculate_diff_position (diff file_path : string)
    (target_line : Z) : option Z :=
  fst (calc_logged diff file_path target_line).

(** The logger as explicit state: each call appends its messages. *)
Definition calc_with_logger (log : list log_entry) (diff file_path : string)
    (target_line : Z) : option Z * list log_entry :=
  let (r, msgs) := calc_logged diff file_path target_line in
  (r, (log ++ msgs)%list).

End Resolver.

Definition NL : string := String "010"%char EmptyString.

Fixpoint join_lines (ls : list string) : string :=
  match ls with
  | [] => EmptyString
  | [l] => l
  | l :: rest => (l ++ NL ++ join_lines rest)%string
  end.

(** ** [post_line_comments]: building the inline comments *)

(** The values a JSON [line] field can hold, as far as [int()] cares. *)
Inductive py_value :=
| PyInt (z : Z)        (* an [int] (or [bool]) *)
| PyStr (s : string)   (* a [str] *)
| PyNone.              (* [None], a list, a dict: [int()] raises *)

(** One element of [review['line_comments']]; a field that is absent is
    [None] here and takes the default of its [comment.get(...)]. *)
Record line_comment := {
  lc_file : option string;
  lc_line : option py_value;
  lc_concern : option string;
  lc_suggestion : option string
}.

Record payload_entry := {
  path : string;
  position : Z;
  body : string
}.

(** [text.replace('\x00', '')] *)
Fixpoint remove_nul (s : string) : string :=
  match s with
  | EmptyString => EmptyString
  | String a r =>
      if Ascii.eqb a "000"%char then remove_nul r else String a (remove_nul r)
  end.

(** [sanitize_input(text, max_length)] on a [str]. *)
Definition sanitize_input (text : string) (max_length : nat) : string :=
  match text with
  | EmptyString => EmptyString
  | _ =>
      let text := if (max_length <? String.length text)%nat
                  then substring 0 max_length text else text in
      remove_nul text
  end.

Definition get_str (o : option string) : string :=
  match o with Some s => s | None => EmptyString end.

Section Orchestrator.

(** [int(s)] on a [str]: Python's integer parser (signs, surrounding
    whitespace, underscores, ...), [None] where it raises [ValueError]. *)
Variable int_of_str : string -> option Z.

(** [int(v)] *)
Definition py_int (v : py_value) : py_result Z :=
  match v with
  | PyInt z => Ok z
  | PyStr s => match int_of_str s with Some z => Ok z | None => Err ValueError end
  | PyNone => Err TypeError
  end.

(** [body = f"**{concern}**" if concern else ""] and the suggestion. *)
Definition comment_body (concern suggestion : string) : string :=
  let b := match concern with
           | EmptyString => EmptyString
           | _ => ("**" ++ concern ++ "**")%string
           end in
  match suggestion with
  | EmptyString => b
  | _ => match b with
         | EmptyString => suggestion
         | _ => (b ++ NL ++ NL ++ suggestion)%string
         end
  end.

(** One iteration of [for comment in line_comments[:10]]; [resolve fp n]
    stands for [self._calculate_diff_position(diff, fp, n)]. The result is
    the entry appended, if any, or the exception raised. *)
Definition process_comment (resolve : string -> Z -> option Z)
    (c : line_comment) : py_result (option payload_entry) :=
  let file_path := sanitize_input (get_str (lc_file c)) 500 in
  match file_path with
  | EmptyString => Ok None
  | _ =>
      let v := match lc_line c with Some v => v | None => PyInt 1 end in
      match py_int v with
      | Err e => Err e
      | Ok n =>
          let line_number := Z.max 1 n in
          match resolve file_path line_number with
          | None => Ok None
          | Some pos =>
              let b := comment_body (get_str (lc_concern c))
                                    (get_str (lc_suggestion c)) in
              match b with
              | EmptyString => Ok None
              | _ => Ok (Some {| path := file_path; position := pos; body := b |})
              end
          end
      end
  end.

Fixpoint build_comments (resolve : string -> Z -> option Z)
    (cs : list line_comment) : py_result (list payload_entry) :=
  match cs with
  | [] => Ok []
  | c :: rest =>
      match process_comment resolve c with
      | Err e => Err e
      | Ok oe =>
          match build_comments resolve rest with
          | Err e => Err e
          | Ok es =>
              Ok (match oe with Some e => e :: es | None => es end)
          end
      end
  end.

Variable int_max_str_digits : nat.

(** The [comments] list sent to the review endpoint, if any. [diff] is the
    content of [pr_diff.txt]; the HTTP calls are the platform's. An
    exception inside the loop is caught by [except Exception] and nothing
    is posted. *)
Definition post_line_comments (diff : string) (line_comments : list line_comment)
    : option (list payload_entry) :=
  match line_comments with
  | [] => None
  | _ =>
      match diff with
      | EmptyString => None
      | _ =>
          match build_comments (_calculate_diff_position int_max_str_digits diff)
                  (firstn 10 line_comments) with
          | Err _ => None
          | Ok [] => None
          | Ok comments => Some comments
          end
      end
  end.

End Orchestrator.

(** ** [retry_with_backoff] *)

(** What one call of the wrapped function does; [Retryable] stands for a
    [requests.RequestException] or an [anthropic.APIError], the two
    exception types the wrapper catches; [n] names the exception object. *)
Inductive raised := Retryable (n : nat) | NotRetryable (n : nat).

(** What the wrapper does in the end: [return] a value, re-raise an
    exception, or [raise None] (a [TypeError]) when it never called. *)
Inductive retry_outcome (A : Type) :=
| RReturn (a : A)
| RRaise (r : raised)
| RRaiseNone.
Arguments RReturn {A} a.
Arguments RRaise {A} r.
Arguments RRaiseNone {A}.

(** The calls and the [time.sleep] calls of the wrapper, by attempt. *)
Inductive retry_event := Call (attempt : nat) | Sleep (attempt : nat).

(** [for attempt in range(max_retries)], from [attempt] with [remaining]
    iterations left; [f attempt] is the outcome of the call made at that
    attempt (its value or the exception it raises). *)
Fixpoint retry_from {A} (f : nat -> A + raised) (max_retries attempt remaining : nat)
    (last_exception : option raised) : retry_outcome A * list retry_event :=
  match remaining with
  | O =>
      (match last_exception with Some e => RRaise e | None => RRaiseNone end, [])
  | S r =>
      match f attempt with
      | inl v => (RReturn v, [Call attempt])
      | inr (NotRetryable n) => (RRaise (NotRetryable n), [Call attempt])
      | inr (Retryable n) =>
          let '(o, tr) := retry_from f max_retries (S attempt) r (Some (Retryable n)) in
          if (attempt <? max_retries - 1)%nat
          then (o, Call attempt :: Sleep attempt :: tr)
          else (o, Call attempt :: tr)
      end
  end.

Definition retry_with_backoff {A} (max_retries : nat) (f : nat -> A + raised)
    : retry_outcome A * list retry_event :=
  retry_from f max_retries 0 max_retries None.

Fixpoint count_calls (tr : list retry_event) : nat :=
  match tr with
  | [] => 0%nat
  | Call _ :: r => S (count_calls r)
  | Sleep _ :: r => count_calls r
  end.

Fixpoint count_sleeps (tr : list retry_event) : nat :=
  match tr with
  | [] => 0%nat
  | Sleep _ :: r => S (count_sleeps r)
  | Call _ :: r => count_sleeps r
  end.

(** ** [validate_environment_variables] *)

(** A Python [dict] with [str] keys, in insertion order. *)
Definition str_dict := list (string * string).

Fixpoint dict_get (d : str_dict) (k : string) : option string :=
  match d with
  | [] => None
  | (k', v) :: r => if String.eqb k k' then Some v else dict_get r k
  end.

(** [d[k] = v]: an existing key keeps its place. *)
Fixpoint dict_set (d : str_dict) (k v : string) : str_dict :=
  match d with
  | [] => [(k, v)]
  | (k', v') :: r =>
      if String.eqb k k' then (k', v) :: r else (k', v') :: dict_set r k v
  end.

(** The loop over [required_vars]: [getenv] is [os.getenv]; a variable
    whose value is [None] or [''] is missing. *)
Fixpoint collect_env (getenv : string -> option string) (vars : list string)
    (env_vars : str_dict) (missing_vars : list string) : str_dict * list string :=
  match vars with
  | [] => (env_vars, missing_vars)
  | var :: rest =>
      match getenv var with
      | None | Some EmptyString =>
          collect_env getenv rest env_vars (missing_vars ++ [var])
      | Some value =>
          collect_env getenv rest (dict_set env_vars var value) missing_vars
      end
  end.

(** [inl missing_vars]: the [ValueError] naming them; [inr env_vars]. *)
Definition validate_environment_variables (getenv : string -> option string)
    (required_vars : list string) : list string + str_dict :=
  let '(env_vars, missing_vars) := collect_env getenv required_vars [] [] in
  match missing_vars with
  | [] => inr env_vars
  | _ => inl missing_vars
  end.

(** [a or b] on two optional [str] values ([None] and [''] are falsy). *)
Definition py_or_str (a b : option string) : option string :=
  match a with
  | Some (String _ _) => a
  | _ => b
  end.

(** [env_vars.get(var) or self.config.get(key)] in [__init__]. *)
Definition init_field (env_vars : str_dict) (var : string)
    (config_value : option string) : option string :=
  py_or_str (dict_get env_vars var) config_value.

(** ** [validate_diff_size] and the input check of [analyze_code_with_ai] *)

(** Bytes of [c.encode('utf-8')] for a code point [c] below 256. *)
Definition utf8_char_length (a : ascii) : nat :=
  if (nat_of_ascii a <? 128)%nat then 1 else 2.

Fixpoint utf8_length (s : string) : nat :=
  match s with
  | EmptyString => 0
  | String a r => utf8_char_length a + utf8_length r
  end.

(** [validate_diff_size(diff, max_size, logger)] *)
Definition validate_diff_size (diff : string) (max_size : nat) : bool :=
  negb (max_size <? utf8_length diff)%nat.

(** The first lines of [analyze_code_with_ai]: the diff is sanitized to
    [max_diff_size * 2] characters, then a [ValueError] is raised if it
    is larger than [max_diff_size] bytes; otherwise the sanitized diff
    goes into the prompt. *)
Definition analyze_input_check (diff : string) (max_diff_size : nat) : py_result string :=
  let diff := sanitize_input diff (max_diff_size * 2) in
  if validate_diff_size diff max_diff_size then Ok diff else Err ValueError.

Fixpoint has_char (c : ascii) (s : string) : bool :=
  match s with
  | EmptyString => false
  | String a r => Ascii.eqb a c || has_char c r
  end.

(** ** Extracting the JSON object from the model's answer *)

(** [hay.find(needle)] from index [i]: the first start of [needle]. *)
Fixpoint find_from (needle hay : string) (i : nat) : option nat :=
  if startswith needle hay then Some i
  else match hay with
       | EmptyString => None
       | String _ r => find_from needle r (S i)
       end.

(** [hay.rfind(needle)] from index [i]: the last start of [needle]. *)
Fixpoint rfind_from (needle hay : string) (i : nat) : option nat :=
  match hay with
  | EmptyString => if startswith needle hay then Some i else None
  | String _ r =>
      match rfind_from needle r (S i) with
      | Some j => Some j
      | None => if startswith needle hay then Some i else None
      end
  end.

(** [str.index] and [str.rindex]; the code calls them only after an [in]
    test has found the needle, so the [ValueError] case never occurs and
    the default [0] is never used. *)
Definition str_index (needle hay : string) : nat :=
  match find_from needle hay 0 with Some i => i | None => 0 end.

Definition str_rindex (needle hay : string) : nat :=
  match rfind_from needle hay 0 with Some i => i | None => 0 end.

Definition str_contains (needle hay : string) : bool :=
  match find_from needle hay 0 with Some _ => true | None => false end.

(** [s[a:b]] for [0 <= a, b]: empty when [b <= a]. *)
Definition slice (a b : nat) (s : string) : string := substring a (b - a) s.

Fixpoint lstrip (s : string) : string :=
  match s with
  | String a r => if is_py_space a then lstrip r else s
  | EmptyString => EmptyString
  end.

Definition string_rev (s : string) : string :=
  string_of_list_ascii (rev (list_ascii_of_string s)).

(** [s.strip()] *)
Definition strip (s : string) : string := string_rev (lstrip (string_rev (lstrip s))).

Definition fence : string := "```".
Definition json_fence : string := "```json".

(** The markdown unwrapping in [analyze_code_with_ai], before
    [json.loads(content)]. *)
Definition extract_json_text (content : string) : string :=
  if str_contains json_fence content then
    let json_start := (str_index json_fence content + 7)%nat in
    let json_end := str_rindex fence content in
    strip (slice json_start json_end content)
  else if str_contains fence content then
    let json_start := (str_index fence content + 3)%nat in
    let json_end := str_rindex fence content in
    strip (slice json_start json_end content)
  else content.

(** ** The Jira ticket check [re.match(r'^[A-Z]+-\d+$', ticket)] *)

Definition is_upper (a : ascii) : bool :=
  let n := nat_of_ascii a in ((65 <=? n) && (n <=? 90))%nat.

(** [\d+$] after at least [seen] digits: [$] matches at the end of the
    string and before a newline that ends it. *)
Fixpoint digits_then_end (s : string) (seen : bool) : bool :=
  match s with
  | EmptyString => seen
  | String a r =>
      if is_digit a then digits_then_end r true
      else seen && Ascii.eqb a "010"%char && String.eqb r EmptyString
  end.

(** [[A-Z]+-] and then [\d+$]. No character of [[A-Z]] is [-] or a
    digit, so greedy matching never needs to backtrack. *)
Fixpoint upper_then_digits (s : string) (seen : bool) : bool :=
  match s with
  | EmptyString => false
  | String a r =>
      if is_upper a then upper_then_digits r true
      else seen && Ascii.eqb a "-"%char && digits_then_end r false
  end.

Definition valid_ticket_format (ticket : string) : bool :=
  upper_then_digits ticket false.

(** ** [update_jira_ticket]: the Atlassian document it posts *)

(** JSON values as [requests] serializes them. *)
#[warnings="-register-all"]
Inductive json :=
| JStr (s : string)
| JNum (z : Z)
| JArr (l : list json)
| JObj (fields : list (string * json)).

Definition jtext (s : string) : json :=
  JObj [("type", JStr "text"); ("text", JStr s)]%string.

Definition jem : json := JObj [("type", JStr "em")]%string.

Definition jheading (level : Z) (s : string) : json :=
  JObj [("type", JStr "heading"); ("attrs", JObj [("level", JNum level)]);
        ("content", JArr [jtext s])]%string.

Definition jlist_item (s : string) : json :=
  JObj [("type", JStr "listItem");
        ("content", JArr [JObj [("type", JStr "paragraph"); ("content", JArr [jtext s])]])]%string.

(** The [content] list, built as in the source; [testing_requirements]
    and [manual_testing_steps] are the review's lists ([[]] when absent). *)
Definition jira_content (pr_number pr_title repo : string)
    (testing_requirements manual_testing_steps : list string) : list json :=
  ([jheading 3 "Testing Requirements for PR Merge";
    JObj [("type", JStr "paragraph");
          ("content", JArr [JObj [("type", JStr "text");
             ("text", JStr ("From PR #" ++ pr_number ++ ": " ++ sanitize_input pr_title 200));
             ("marks", JArr [jem])]])];
    jheading 4 "What Needs to Be Tested:"]
  ++ match testing_requirements with
     | [] => []
     | _ => [JObj [("type", JStr "bulletList");
                   ("content", JArr (map (fun req => jlist_item (sanitize_input req 1000))
                                         testing_requirements))]]
     end
  ++ [jheading 4 "Manual Testing Steps:"]
  ++ match manual_testing_steps with
     | [] => []
     | _ => [JObj [("type", JStr "orderedList");
                   ("content", JArr (map (fun step => jlist_item (sanitize_input step 1000))
                                         manual_testing_steps))]]
     end
  ++ [JObj [("type", JStr "rule")];
      JObj [("type", JStr "paragraph");
            ("content", JArr [
               JObj [("type", JStr "text"); ("text", JStr "Auto-generated from ");
                     ("marks", JArr [jem])];
               JObj [("type", JStr "text"); ("text", JStr ("PR #" ++ pr_number));
                     ("marks", JArr [jem;
                        JObj [("type", JStr "link");
                              ("attrs", JObj [("href", JStr ("https://github.com/" ++ repo
                                                ++ "/pull/" ++ pr_number))])]])]])]])%list%string.

Definition jira_comment_body (content : list json) : json :=
  JObj [("body", JObj [("type", JStr "doc"); ("version", JNum 1); ("content", JArr content)])]%string.

(** The comment [update_jira_ticket] posts, as (URL, JSON body), if any:
    [jira_present] is [self.jira] being set, [issue_fetched] whether
    [self.jira.issue(ticket)] returned (an exception there is caught and
    nothing is posted). *)
Definition update_jira_ticket (jira_present : bool) (jira_url jira_ticket pr_number pr_title repo : string)
    (issue_fetched : bool) (testing_requirements manual_testing_steps : list string)
    : option (string * json) :=
  if negb jira_present || String.eqb jira_ticket "" then None
  else if negb (valid_ticket_format jira_ticket) then None
  else if negb issue_fetched then None
  else Some ((jira_url ++ "/rest/api/3/issue/" ++ jira_ticket ++ "/comment")%string,
             jira_comment_body (jira_content pr_number pr_title repo
                                  testing_requirements manual_testing_steps)).

(** Reading the posted document back: the texts of the list items of the
    top-level nodes of a given [type]. *)
Fixpoint jfield (k : string) (fs : list (string * json)) : option json :=
  match fs with
  | [] => None
  | (k', v) :: r => if String.eqb k k' then Some v else jfield k r
  end.

Definition jget (k : string) (j : json) : option json :=
  match j with JObj fs => jfield k fs | _ => None end.

Definition item_text (item : json) : list string :=
  match jget "content" item with
  | Some (JArr (p :: _)) =>
      match jget "content" p with
      | Some (JArr (t :: _)) =>
          match jget "text" t with Some (JStr s) => [s] | _ => [] end
      | _ => []
      end
  | _ => []
  end%string.

Fixpoint items_of_kind (kind : string) (nodes : list json) : list string :=
  match nodes with
  | [] => []
  | n :: r =>
      ((match jget "type" n with
        | Some (JStr k) =>
            if String.eqb k kind then
              match jget "content" n with
              | Some (JArr items) => flat_map item_text items
              | _ => []
              end
            else []
        | _ => []
        end) ++ items_of_kind kind r)%list
  end%string.

Definition doc_list_texts (kind : string) (payload : json) : list string :=
  match jget "body" payload with
  | Some b => match jget "content" b with
              | Some (JArr nodes) => items_of_kind kind nodes
              | _ => []
              end
  | None => []
  end%string.

(** ** [validate_file_path] and [read_file] *)

(** What the file system holds at a resolved path: a file, with its
    contents when [open(..., encoding='utf-8').read()] succeeds, or a
    directory. *)
Inductive fs_entry :=
| FsFile (contents : option string)
| FsDir.

Section Files.
(** [Path(p).resolve()]: the absolute path, or [None] when it raises. *)
Variable resolve : string -> option string.
(** The file system, by absolute path. *)
Variable fs : string -> option fs_entry.

Definition validate_file_path (filepath : string) : bool :=
  match resolve filepath with
  | None => false
  | Some abs_path =>
      if str_contains ".." filepath then false
      else match fs abs_path with
           | Some (FsFile _) => true
           | _ => false
           end
  end%string.

Definition read_file (filepath : string) : string :=
  if negb (validate_file_path filepath) then EmptyString
  else match resolve filepath with
       | Some abs_path =>
           match fs abs_path with
           | Some (FsFile (Some content)) => content
           | _ => EmptyString
           end
       | None => EmptyString
       end.
End Files.

(** ** [sanitize_input] with an [int] limit *)

(** [s[:k]] for an [int] [k]: a negative [k] counts from the end, and a
    start past the end gives the empty string. *)
Definition py_prefix (k : Z) (s : string) : string :=
  if 0 <=? k then substring 0 (Z.to_nat k) s
  else substring 0 (String.length s - Z.to_nat (- k)) s.

(** [sanitize_input(text, max_length)] for any [int] [max_length] (the
    limit of [analyze_code_with_ai] is [self.max_diff_size * 2], read
    from [MAX_DIFF_SIZE] and possibly negative). *)
Definition sanitize_input_int (text : string) (max_length : Z) : string :=
  match text with
  | EmptyString => EmptyString
  | _ =>
      let text := if Z.of_nat (String.length text) >? max_length
                  then py_prefix max_length text else text in
      remove_nul text
  end.

(** ** [update_jira_ticket] on the values the review and the configuration
    can hold *)

(** A value that [sanitize_input] or [re.match] receives: a [str], a falsy
    value ([None], [0], [False], [[]], [{}], for which [sanitize_input]
    returns ['']), or any other value (a non-zero number, [True], a
    non-empty list or dict: [len] or [.replace] raises, and so does
    [re.match]). *)
Inductive review_item :=
| RStr (s : string)
| RFalsy
| ROther.

(** [review.get('testing_requirements')] (or [manual_testing_steps]); the
    review is a dict, as [run] has read it with [review.get] in
    [format_pr_comment] before. *)
Inductive review_field :=
| FArr (items : list review_item)   (* a JSON array *)
| FText (s : string)                (* a string: iterated by character *)
| FKeys (keys : list string)        (* an object: iterated by key *)
| FFalsy                            (* absent or [null], [0], [false] *)
| FOther.                           (* a non-zero number or [true]: [for] raises *)

Definition field_items (f : review_field) : option (list review_item) :=
  match f with
  | FArr items => Some items
  | FText s => Some (map (fun c => RStr (String c EmptyString)) (list_ascii_of_string s))
  | FKeys keys => Some (map RStr keys)
  | FFalsy => Some []
  | FOther => None
  end.

(** What [sanitize_input] is given, as a [str], or [None] where it raises;
    [sanitize_input] of a falsy value is [sanitize_input('') = '']. *)
Definition item_str (i : review_item) : option string :=
  match i with
  | RStr s => Some s
  | RFalsy => Some EmptyString
  | ROther => None
  end.

Fixpoint items_strs (l : list review_item) : option (list string) :=
  match l with
  | [] => Some []
  | i :: r =>
      match item_str i, items_strs r with
      | Some s, Some ss => Some (s :: ss)
      | _, _ => None
      end
  end.

Definition field_texts (f : review_field) : option (list string) :=
  match field_items f with
  | Some items => items_strs items
  | None => None
  end.

(** [update_jira_ticket] with [self.jira_ticket] and [self.pr_title] as
    they come from the environment or the configuration file, and the two
    review fields as the AI returned them; any exception inside the [try]
    is caught and nothing is posted. *)
Definition update_jira_review (jira_present : bool) (jira_url : string)
    (jira_ticket : review_item) (pr_number : string) (pr_title : review_item)
    (repo : string) (issue_fetched : bool)
    (testing_requirements manual_testing_steps : review_field)
    : option (string * json) :=
  match jira_ticket with
  | RStr ticket =>
      if negb jira_present || String.eqb ticket "" then None
      else if negb (valid_ticket_format ticket) then None
      else if negb issue_fetched then None
      else match item_str pr_title, field_texts testing_requirements,
                 field_texts manual_testing_steps with
           | Some title, Some reqs, Some steps =>
               Some ((jira_url ++ "/rest/api/3/issue/" ++ ticket ++ "/comment")%string,
                     jira_comment_body (jira_content pr_number title repo reqs steps))
           | _, _, _ => None
           end
  | RFalsy => None      (* [not self.jira_ticket] *)
  | ROther => None      (* [re.match] raises [TypeError], caught *)
  end%string.

(** ** Concrete diffs of the reference scenarios *)

Definition scenario_A : string := join_lines
  ["diff --git a/src/app.py b/src/app.py"; "@@ -10,3 +10,4 @@";
   " line10"; "+line11_new"; " line12"; " line13"]%string.

Definition scenario_B : string := join_lines
  ["diff --git a/a.py b/a.py"; "@@ -1,3 +1,2 @@";
   " keep1"; "-removed"; " keep2"]%string.

(** Scenario A as [git diff] prints it, with its [---]/[+++] lines. *)
Definition scenario_A_git : string := join_lines
  ["diff --git a/src/app.py b/src/app.py"; "index 3b18e51..a9c2f04 100644";
   "--- a/src/app.py"; "+++ b/src/app.py"; "@@ -10,3 +10,4 @@";
   " line10"; "+line11_new"; " line12"; " line13"]%string.

(** Values [sys.set_int_max_str_digits] accepts. *)
Definition valid_int_limit (m : nat) : Prop := m = 0%nat \/ (640 <= m)%nat.

(** Header and hunk lines: the two kinds that change the scan's section. *)
Definition no_header (line : string) : bool :=
  negb (startswith "diff --git" line) && negb (startswith "@@" line).

Fixpoint count_counted (ls : list string) : nat :=
  match ls with
  | [] => 0%nat
  | l :: r => ((if is_counted l then 1 else 0) + count_counted r)%nat
  end.

(** The scan meets, inside the target file's section, a counted line at
    which the new-file line counter becomes [target_line]. *)
Inductive reaches (m : nat) (fp : string) (t : Z)
    : scan_state -> list string -> Prop :=
| reaches_here st l ls :
    in_target_file st = true -> no_header l = true -> is_counted l = true ->
    new_file_line st + 1 = t -> reaches m fp t st (l :: ls)
| reaches_later st st' l ls :
    step m fp t st l = Continue st' -> reaches m fp t st' ls ->
    reaches m fp t st (l :: ls).

(** No [diff --git] header of the diff names [fp]. *)
Definition file_absent (diff fp : string) : Prop :=
  forall l, In l (split_char "010"%char diff) ->
    startswith "diff --git" l = true -> header_path l <> Some fp.

(** [post_line_comments] as the spec states it: the entry of a comment,
    when its sanitized path is non-empty, its line resolves to a position
    and its body is non-empty. *)
Definition claimed_entry (int_of_str : string -> option Z)
    (resolve : string -> Z -> option Z) (c : line_comment) : list payload_entry :=
  let fp := sanitize_input (get_str (lc_file c)) 500 in
  if String.eqb fp "" then []
  else
    let v := match lc_line c with Some v => v | None => PyInt 1 end in
    match py_int int_of_str v with
    | Err _ => []
    | Ok n =>
        match resolve fp (Z.max 1 n) with
        | None => []
        | Some pos =>
            let b := comment_body (get_str (lc_concern c)) (get_str (lc_suggestion c)) in
            if String.eqb b "" then []
            else [{| path := fp; position := pos; body := b |}]
        end
    end.

(** ** Lemmas on the scan *)

Lemma valid_int_limit_cases m :
  valid_int_limit m -> m = 0%nat \/ exists k, m = S (S k).
Proof.
  intros [H | H]; [now left | right].
  exists (m - 2)%nat; lia.
Qed.

Lemma step_return m fp t st l p :
  step m fp t st l = Return p ->
  in_target_file st = true /\ no_header l = true /\ is_counted l = true /\
  new_file_line st + 1 = t /\ p = hunk_position st + 1.
Proof.
  unfold step, no_header.
  destruct (startswith "diff --git" l); [destruct (header_path l); discriminate|].
  destruct (startswith "@@" l).
  - destruct (in_target_file st); [|discriminate].
    destruct (search_plus_digits l) as [ds|]; [|discriminate].
    destruct (py_int_of_digits m ds); discriminate.
  - destruct (in_target_file st) eqn:Ht; [|discriminate].
    destruct (is_counted l); [|discriminate].
    destruct (new_file_line st + 1 =? t) eqn:E; [|discriminate].
    intros H; injection H as <-. apply Z.eqb_eq in E. auto.
Qed.

Lemma scan_some_reaches m fp t st ls p :
  scan m fp t st ls = Ok (Some p) -> reaches m fp t st ls.
Proof.
  revert st. induction ls as [|l ls IH]; intros st; simpl; [discriminate|].
  destruct (step m fp t st l) as [st'|q|e] eqn:E.
  - intros H. eapply reaches_later; eauto.
  - intros _. apply step_return in E as (? & ? & ? & ? & _).
    now apply reaches_here.
  - discriminate.
Qed.

Lemma step_other_file m fp t st l :
  in_target_file st = false ->
  (startswith "diff --git" l = true -> header_path l <> Some fp) ->
  exists st', step m fp t st l = Continue st' /\ in_target_file st' = false.
Proof.
  intros Ht Hh. unfold step.
  destruct (startswith "diff --git" l).
  - destruct (header_path l) as [cur|] eqn:E; [|eauto].
    eexists; split; [reflexivity|]. simpl.
    apply String.eqb_neq. intros ->. now apply (Hh eq_refl).
  - rewrite Ht. destruct (startswith "@@" l); eauto.
Qed.

Lemma absent_not_reaches m fp t st ls :
  in_target_file st = false ->
  (forall l, In l ls -> startswith "diff --git" l = true -> header_path l <> Some fp) ->
  ~ reaches m fp t st ls.
Proof.
  intros Ht Hls Hr. induction Hr as [st l ls Hin | st st' l ls Hs Hr IH].
  - congruence.
  - destruct (step_other_file m fp t st l Ht) as (st'' & E & Ht'').
    + apply Hls; now left.
    + rewrite Hs in E. injection E as <-.
      apply IH; [assumption|]. intros l' Hl'. apply Hls. now right.
Qed.

(** A line on which the step leaves the state as it is can be removed
    anywhere from the scanned lines. *)
Lemma scan_drop_inert m fp t l :
  (forall st, step m fp t st l = Continue st) ->
  forall pre post st,
    scan m fp t st (pre ++ l :: post) = scan m fp t st (pre ++ post).
Proof.
  intros Hl pre. induction pre as [|a pre IH]; intros post st; simpl.
  - now rewrite Hl.
  - destruct (step m fp t st a); auto.
Qed.

Lemma scan_counts_in_hunk m fp t body : forall st p,
  in_target_file st = true -> forallb no_header body = true ->
  scan m fp t st body = Ok (Some p) ->
  (forall more, scan m fp t st (body ++ more) = Ok (Some p)) /\
  exists pre l rest, body = pre ++ l :: rest /\ is_counted l = true /\
    p = hunk_position st + Z.of_nat (count_counted pre) + 1.
Proof.
  induction body as [|l body IH]; intros st p Ht Hnh; simpl; [discriminate|].
  simpl in Hnh. apply andb_prop in Hnh as [Hl Hnh].
  destruct (step m fp t st l) as [st'|q|e] eqn:E.
  - intros Hs.
    assert (Hst' : in_target_file st' = true /\
                   hunk_position st' = hunk_position st + if is_counted l then 1 else 0).
    { unfold no_header in Hl. apply andb_prop in Hl as [H1 H2].
      apply negb_true_iff in H1, H2.
      unfold step in E. rewrite H1, H2, Ht in E.
      destruct (is_counted l).
      - destruct (new_file_line st + 1 =? t); [discriminate|].
        injection E as <-. simpl. auto.
      - injection E as <-. split; [assumption | lia]. }
    destruct Hst' as [Ht' Hhp].
    destruct (IH st' p Ht' Hnh Hs) as [Hmore (pre & l' & rest & -> & Hc & ->)].
    split.
    + intros more. cbn [app scan]. apply Hmore.
    + exists (l :: pre), l', rest. split; [reflexivity|]. split; [assumption|].
      rewrite Hhp. simpl. destruct (is_counted l); lia.
  - intros H. injection H as <-.
    apply step_return in E as (_ & _ & Hc & _ & ->).
    split; [reflexivity|].
    exists [], l, body. simpl. auto with zarith.
  - discriminate.
Qed.

Lemma process_comment_claimed int_of_str resolve c oe :
  process_comment int_of_str resolve c = Ok oe ->
  match oe with Some e => [e] | None => [] end = claimed_entry int_of_str resolve c.
Proof.
  unfold process_comment, claimed_entry.
  destruct (sanitize_input (get_str (lc_file c)) 500) as [|a s]; simpl.
  - intros H. now injection H as <-.
  - destruct (py_int int_of_str _) as [n|e]; [|discriminate].
    destruct (resolve _ (Z.max 1 n)) as [pos|].
    + destruct (comment_body _ _) as [|b bs]; intros H; injection H as <-; reflexivity.
    + intros H. now injection H as <-.
Qed.

Lemma build_comments_claimed int_of_str resolve cs : forall es,
  build_comments int_of_str resolve cs = Ok es ->
  es = concat (map (claimed_entry int_of_str resolve) cs).
Proof.
  induction cs as [|c cs IH]; intros es; simpl.
  - intros H. now injection H as <-.
  - destruct (process_comment int_of_str resolve c) as [oe|e] eqn:E; [|discriminate].
    destruct (build_comments int_of_str resolve cs) as [es'|e]; [|discriminate].
    intros H. injection H as <-.
    rewrite <- (process_comment_claimed _ _ _ _ E), <- (IH es' eq_refl).
    now destruct oe.
Qed.

Lemma claimed_entry_length int_of_str resolve c :
  (List.length (claimed_entry int_of_str resolve c) <= 1)%nat.
Proof.
  unfold claimed_entry.
  destruct (String.eqb _ _); simpl; [lia|].
  destruct (py_int _ _); simpl; [|lia].
  destruct (resolve _ _); simpl; [|lia].
  destruct (String.eqb _ _); simpl; lia.
Qed.

Lemma concat_map_length_le {A B} (f : A -> list B) l :
  (forall a, List.length (f a) <= 1)%nat ->
  (List.length (concat (map f l)) <= List.length l)%nat.
Proof.
  intros Hf. induction l as [|a l IH]; simpl; [lia|].
  rewrite length_app. specialize (Hf a). lia.
Qed.

Fixpoint repeat_char (n : nat) (a : ascii) : string :=
  match n with O => EmptyString | S n' => String a (repeat_char n' a) end.

(** A hunk header whose new-file start has 4301 digits. *)
Definition long_header_diff : string :=
  join_lines ["diff --git a/f.py b/f.py";
              ("@@ -1 +" ++ repeat_char 4301 "1"%char ++ " @@")%string;
              "+x"]%string.

(** ** The claims *)

(** C1: a hunk header met inside the target file's section sets the
    hunk-local position counter to 0; a position returned inside the body
    of that hunk (no header line before the target line) is the number of
    Addition and Context lines of that body up to and including the
    target line, whatever was counted before the header. *)
Theorem hunk_header_resets_position m fp t st h body p :
  in_target_file st = true -> startswith "@@" h = true ->
  (forall st', step m fp t st h = Continue st' -> hunk_position st' = 0) /\
  (forallb no_header body = true ->
   scan m fp t st (h :: body) = Ok (Some p) ->
   (forall more, scan m fp t st (h :: body ++ more) = Ok (Some p)) /\
   exists pre l rest, body = pre ++ l :: rest /\ is_counted l = true /\
     p = Z.of_nat (count_counted pre) + 1).
Proof.
  intros Ht Hh.
  assert (Hstep : forall st', step m fp t st h = Continue st' ->
                  in_target_file st' = true /\ hunk_position st' = 0).
  { intros st'. unfold step.
    destruct (startswith "diff --git" h) eqn:Hd.
    - destruct h as [|a h]; [discriminate|].
      destruct a as [[] [] [] [] [] [] [] []]; discriminate.
    - rewrite Hh, Ht.
      destruct (search_plus_digits h) as [ds|].
      + destruct (py_int_of_digits m ds); [|discriminate].
        intros E; injection E as <-; auto.
      + intros E; injection E as <-; auto. }
  split; [intros st' E; now apply Hstep|].
  intros Hnh Hs. simpl in Hs.
  destruct (step m fp t st h) as [st'|q|e] eqn:E.
  - destruct (Hstep st' eq_refl) as [Ht' Hhp].
    destruct (scan_counts_in_hunk m fp t body st' p Ht' Hnh Hs)
      as [Hmore (pre & l & rest & Hb & Hc & Hp)].
    split.
    + intros more. simpl. rewrite E. apply Hmore.
    + exists pre, l, rest. rewrite Hhp in Hp. auto with zarith.
  - apply step_return in E as (_ & Hnh' & _).
    unfold no_header in Hnh'. rewrite Hh in Hnh'.
    rewrite andb_false_r in Hnh'. discriminate.
  - discriminate.
Qed.

Definition witness_state : scan_state :=
  {| current_file := Some "a.py"%string; in_target_file := true;
     hunk_position := 5; new_file_line := 7 |}.

Lemma hunk_header_resets_position_witness :
  scan 4300 "a.py" 21 witness_state
    ("@@ -20,2 +20,2 @@" :: [" c20"; "+a21"])%string = Ok (Some 2) /\
  exists pre l rest, [" c20"; "+a21"]%string = pre ++ l :: rest /\
    is_counted l = true /\ 2 = Z.of_nat (count_counted pre) + 1.
Proof.
  assert (Hs : scan 4300 "a.py" 21 witness_state
    ("@@ -20,2 +20,2 @@" :: [" c20"; "+a21"])%string = Ok (Some 2))
    by (vm_compute; reflexivity).
  split; [exact Hs|].
  exact (proj2 (proj2 (hunk_header_resets_position 4300 "a.py" 21 witness_state
    "@@ -20,2 +20,2 @@" [" c20"; "+a21"]%string 2 eq_refl eq_refl) eq_refl Hs)).
Defined.

(** C2 (failing input): in a diff with the usual [---]/[+++] file header,
    the line [+++ b/src/app.py] of the target file's section goes through
    the [startswith('+')] branch and is counted as an Addition line, so
    new-file line 1, which lies in no hunk, resolves to position 1. The
    [index] and [---] lines are skipped. *)
Theorem plus_header_line_counted m :
  _calculate_diff_position m scenario_A_git "src/app.py" 1 = Some 1 /\
  _calculate_diff_position m scenario_A "src/app.py" 1 = None /\
  is_counted "+++ b/src/app.py" = true /\
  is_counted "--- a/src/app.py" = false /\
  is_counted "index 3b18e51..a9c2f04 100644" = false.
Proof.
  destruct m as [|[|m]]; vm_compute; repeat split.
Qed.

(** C3: Scenario A resolves new-file lines 10, 11 and 12 to positions 1,
    2 and 3. *)
Theorem scenario_A_positions m :
  valid_int_limit m ->
  _calculate_diff_position m scenario_A "src/app.py" 10 = Some 1 /\
  _calculate_diff_position m scenario_A "src/app.py" 11 = Some 2 /\
  _calculate_diff_position m scenario_A "src/app.py" 12 = Some 3.
Proof.
  intros Hm. destruct (valid_int_limit_cases m Hm) as [-> | [k ->]];
    vm_compute; repeat split.
Qed.

Lemma scenario_A_positions_witness :
  valid_int_limit 4300 /\ _calculate_diff_position 4300 scenario_A "src/app.py" 11 = Some 2.
Proof.
  assert (H : valid_int_limit 4300) by (right; lia).
  split; [exact H|]. exact (proj1 (proj2 (scenario_A_positions 4300 H))).
Defined.

(** C4: a line starting with [-] leaves the scan state as it is (neither
    counter moves); in Scenario B new-file lines 1 and 2 resolve to 1 and
    2, and line 3 is not found. *)
Theorem deletion_lines_not_counted m :
  (forall fp t st l, startswith "-" l = true -> step m fp t st l = Continue st) /\
  (valid_int_limit m ->
   _calculate_diff_position m scenario_B "a.py" 1 = Some 1 /\
   _calculate_diff_position m scenario_B "a.py" 2 = Some 2 /\
   _calculate_diff_position m scenario_B "a.py" 3 = None).
Proof.
  split.
  - intros fp t st l Hl. unfold step.
    destruct l as [|a l]; [discriminate|].
    cbn [startswith] in Hl. rewrite andb_true_r in Hl. apply Ascii.eqb_eq in Hl. subst a.
    vm_compute startswith. cbn iota beta.
    destruct (in_target_file st); [|reflexivity].
    unfold is_counted. vm_compute startswith. reflexivity.
  - intros Hm. destruct (valid_int_limit_cases m Hm) as [-> | [k ->]];
      vm_compute; repeat split.
Qed.

Lemma deletion_lines_not_counted_witness :
  step 4300 "a.py" 1 witness_state "-removed" = Continue witness_state /\
  valid_int_limit 4300 /\ _calculate_diff_position 4300 scenario_B "a.py" 3 = None.
Proof.
  assert (H : valid_int_limit 4300) by (right; lia).
  split; [exact (proj1 (deletion_lines_not_counted 4300) "a.py"%string 1 witness_state
                   "-removed"%string eq_refl)|].
  split; [exact H|]. exact (proj2 (proj2 (proj2 (deletion_lines_not_counted 4300) H))).
Defined.

(** C5: when the scan never meets, inside the target file's section, a
    counted line at which the new-file line counter equals the target
    line (in particular when no [diff --git] header names the file), the
    result is [None]. *)
Theorem not_reached_not_found m diff fp t :
  ~ reaches m fp t init_state (split_char "010"%char diff) \/ file_absent diff fp ->
  _calculate_diff_position m diff fp t = None.
Proof.
  intros H.
  assert (Hn : ~ reaches m fp t init_state (split_char "010"%char diff)).
  { destruct H as [H | H]; [exact H|]. now apply absent_not_reaches. }
  unfold _calculate_diff_position, calc_logged.
  destruct (scan m fp t init_state (split_char "010"%char diff)) as [[p|]|e] eqn:E;
    try reflexivity.
  exfalso. apply Hn. eapply scan_some_reaches. exact E.
Qed.

Lemma file_absent_scenario_A : file_absent scenario_A "nonexistent.py".
Proof.
  intros l Hl Hd. vm_compute in Hl.
  repeat (destruct Hl as [<- | Hl]; [vm_compute; discriminate|]). contradiction.
Qed.

Lemma not_reached_not_found_witness :
  file_absent scenario_A "nonexistent.py" /\
  _calculate_diff_position 4300 scenario_A "nonexistent.py" 5 = None.
Proof.
  split; [exact file_absent_scenario_A|].
  apply not_reached_not_found. right. exact file_absent_scenario_A.
Defined.

(** A step raises only on a [@@] line of the target file whose [+] digit
    run is longer than [int()] accepts. *)
Lemma step_raise_inv m fp t st line e :
  step m fp t st line = Raise e ->
  e = ValueError /\ startswith "@@" line = true /\ in_target_file st = true /\
  exists ds, search_plus_digits line = Some ds /\
             m <> 0%nat /\ (m < String.length ds)%nat.
Proof.
  unfold step.
  destruct (startswith "diff --git" line); [destruct (header_path line); discriminate|].
  destruct (startswith "@@" line) eqn:Eat.
  - destruct (in_target_file st) eqn:Ein; [|discriminate].
    destruct (search_plus_digits line) as [ds|] eqn:Es; [|discriminate].
    unfold py_int_of_digits.
    destruct (negb (m =? 0)%nat && (m <? String.length ds)%nat) eqn:Ec; [|discriminate].
    intros H. injection H as <-.
    apply andb_prop in Ec as [E1 E2]. apply negb_true_iff, Nat.eqb_neq in E1.
    apply Nat.ltb_lt in E2.
    repeat split; auto. exists ds. auto.
  - destruct (in_target_file st); [destruct (is_counted line);
      [destruct (_ =? t); discriminate|]|]; discriminate.
Qed.

Lemma scan_err_inv m fp t lines : forall st e,
  scan m fp t st lines = Err e ->
  exists st' line, In line lines /\ step m fp t st' line = Raise e.
Proof.
  induction lines as [|line lines IH]; intros st e H; simpl in H; [discriminate|].
  destruct (step m fp t st line) as [st'|p|e'] eqn:Es.
  - destruct (IH _ _ H) as (st'' & l & Hin & Hs). exists st'', l. simpl. auto.
  - discriminate.
  - injection H as ->. exists st, line. simpl. auto.
Qed.

(** C6: [_calculate_diff_position] never raises, for every diff, path and
    target line: a line that is neither a [diff --git] header with a path,
    nor a [@@] header, nor a counted line is skipped (the scan state is
    unchanged); the only failure inside the loop is [int()] refusing an
    over-long hunk number (none when [int()] has no digit limit), and the
    [except] handler turns any failure into [None] with a warning, so the
    method returns the loop's position, or [None]. The failure path is
    reachable: a [@@ +<4301 digits>] header of the target file. *)
Theorem calculate_never_raises m diff fp t :
  (forall st line,
     startswith "diff --git" line = false -> startswith "@@" line = false ->
     is_counted line = false ->
     step m fp t st line = Continue st) /\
  (forall st line,
     startswith "diff --git" line = true -> header_path line = None ->
     step m fp t st line = Continue st) /\
  (forall st line e,
     step m fp t st line = Raise e ->
     e = ValueError /\ startswith "@@" line = true /\ in_target_file st = true /\
     exists ds, search_plus_digits line = Some ds /\
                m <> 0%nat /\ (m < String.length ds)%nat) /\
  (m = 0%nat -> forall e, scan m fp t init_state (split_char "010"%char diff) <> Err e) /\
  _calculate_diff_position m diff fp t =
    match scan m fp t init_state (split_char "010"%char diff) with
    | Ok r => r
    | Err _ => None
    end /\
  (forall e, scan m fp t init_state (split_char "010"%char diff) = Err e ->
     calc_logged m diff fp t = (None, [LogWarnError e])) /\
  (scan 4300 "f.py" 2 init_state (split_char "010"%char long_header_diff) = Err ValueError /\
   _calculate_diff_position 4300 long_header_diff "f.py" 2 = None).
Proof.
  split.
  { intros st line H1 H2 H3. unfold step. rewrite H1, H2, H3.
    destruct (in_target_file st); reflexivity. }
  split.
  { intros st line H1 H2. unfold step. rewrite H1, H2. reflexivity. }
  split; [exact (step_raise_inv m fp t)|].
  split.
  { intros Hm e H. destruct (scan_err_inv _ _ _ _ _ _ H) as (st' & l & _ & Hs).
    destruct (step_raise_inv _ _ _ _ _ _ Hs) as (_ & _ & _ & ds & _ & Hm0 & _).
    contradiction. }
  split.
  { unfold _calculate_diff_position, calc_logged.
    destruct (scan m fp t init_state (split_char "010"%char diff)) as [[p|]|e]; reflexivity. }
  split.
  { intros e H. unfold calc_logged. rewrite H. reflexivity. }
  split; vm_compute; reflexivity.
Qed.

Lemma calculate_never_raises_witness :
  startswith "diff --git" "index 83db48f..bf269f4 100644" = false /\
  step 4300 "f.py" 2 init_state "index 83db48f..bf269f4 100644" = Continue init_state.
Proof.
  assert (H1 : startswith "diff --git" "index 83db48f..bf269f4 100644" = false)
    by reflexivity.
  split; [exact H1|].
  apply (proj1 (calculate_never_raises 4300 long_header_diff "f.py" 2));
    [exact H1 | reflexivity | reflexivity].
Defined.

(** C7: an empty line and a line holding a single space leave the scan
    state as they are, so removing them from the diff changes no result. *)
Theorem blank_lines_not_counted m fp t st pre post :
  step m fp t st ""%string = Continue st /\
  step m fp t st " "%string = Continue st /\
  scan m fp t st (pre ++ ""%string :: post) = scan m fp t st (pre ++ post) /\
  scan m fp t st (pre ++ " "%string :: post) = scan m fp t st (pre ++ post).
Proof.
  assert (Hblank : forall st l, (l = "" \/ l = " ")%string ->
                   step m fp t st l = Continue st).
  { intros st' l [-> | ->]; unfold step; vm_compute startswith; cbn iota beta;
      destruct (in_target_file st'); reflexivity. }
  split; [apply Hblank; now left|].
  split; [apply Hblank; now right|].
  split; apply scan_drop_inert; intros st'; apply Hblank; auto.
Qed.

(** C8: whenever [post_line_comments] sends comments, they are, in order,
    the entries of those of the first 10 proposed comments whose sanitized
    path is non-empty, whose line resolves to a position and whose body is
    non-empty; so there are at most 10 of them. *)
Theorem post_line_comments_entries int_of_str m diff cs es :
  post_line_comments int_of_str m diff cs = Some es ->
  es = concat (map (claimed_entry int_of_str (_calculate_diff_position m diff))
                   (firstn 10 cs)) /\
  (List.length es <= 10)%nat.
Proof.
  unfold post_line_comments.
  destruct cs as [|c cs]; [discriminate|].
  destruct diff as [|a d]; [discriminate|].
  destruct (build_comments _ _ _) as [es'|e] eqn:E; [|discriminate].
  intros H. assert (Hes : es = es') by (destruct es'; [discriminate|congruence]).
  subst es'.
  apply build_comments_claimed in E. split; [exact E|].
  rewrite E. etransitivity; [apply concat_map_length_le, claimed_entry_length|].
  rewrite length_firstn. lia.
Qed.

Definition sample_comment (file : string) (ln : Z) : line_comment :=
  {| lc_file := Some file; lc_line := Some (PyInt ln);
     lc_concern := Some "Unchecked input"%string;
     lc_suggestion := Some "Validate it first."%string |}.

Lemma post_line_comments_entries_witness :
  post_line_comments (fun _ => None) 4300 scenario_A
    [sample_comment "src/app.py" 11; sample_comment "src/other.py" 3] =
    Some [{| path := "src/app.py"; position := 2;
             body := comment_body "Unchecked input" "Validate it first." |}] /\
  (1 <= 10)%nat.
Proof.
  assert (H : post_line_comments (fun _ => None) 4300 scenario_A
    [sample_comment "src/app.py" 11; sample_comment "src/other.py" 3] =
    Some [{| path := "src/app.py"; position := 2;
             body := comment_body "Unchecked input" "Validate it first." |}])
    by (vm_compute; reflexivity).
  split; [exact H|].
  exact (proj2 (post_line_comments_entries _ _ _ _ _ H)).
Defined.

(** C9: for a comment whose [line] is the integer [v], the resolver is
    queried at [max(1, v)] only: changing the resolver below line 1 does
    not change the outcome, and the outcome is the one of a resolver
    answering every query at [max(1, v)]. *)
Theorem line_clamped_before_resolve int_of_str resolve resolve' c v :
  lc_line c = Some (PyInt v) ->
  (forall fp n, 1 <= n -> resolve fp n = resolve' fp n) ->
  1 <= Z.max 1 v /\
  process_comment int_of_str resolve c = process_comment int_of_str resolve' c /\
  process_comment int_of_str resolve c =
    process_comment int_of_str (fun fp _ => resolve fp (Z.max 1 v)) c.
Proof.
  intros Hv Hr.
  split; [lia|].
  unfold process_comment. rewrite Hv. simpl.
  destruct (sanitize_input (get_str (lc_file c)) 500) as [|a s]; [auto|].
  rewrite (Hr _ (Z.max 1 v)) by lia. auto.
Qed.

Lemma line_clamped_before_resolve_witness :
  lc_line (sample_comment "src/app.py" (-4)) = Some (PyInt (-4)) /\
  process_comment (fun _ => None) (_calculate_diff_position 4300 scenario_A)
    (sample_comment "src/app.py" (-4)) =
  process_comment (fun _ => None)
    (fun fp n => if n <? 1 then Some 99 else _calculate_diff_position 4300 scenario_A fp n)
    (sample_comment "src/app.py" (-4)).
Proof.
  split; [reflexivity|].
  apply (line_clamped_before_resolve (fun _ => None) _ _ (sample_comment "src/app.py" (-4)) (-4) eq_refl).
  intros fp n Hn. destruct (n <? 1) eqn:E; [apply Z.ltb_lt in E; lia | reflexivity].
Defined.

(** C10: the result depends on the arguments only: it is the same whatever
    the logger holds before the call, the call only appends its own
    messages, and a second call with the same arguments returns the same
    result as the first. *)
Theorem calculate_deterministic m diff fp t :
  exists msgs, forall log,
    calc_with_logger m log diff fp t =
      (_calculate_diff_position m diff fp t, (log ++ msgs)%list) /\
    fst (calc_with_logger m (snd (calc_with_logger m log diff fp t)) diff fp t) =
      fst (calc_with_logger m log diff fp t).
Proof.
  exists (snd (calc_logged m diff fp t)). intros log.
  unfold calc_with_logger, _calculate_diff_position.
  destruct (calc_logged m diff fp t) as [r msgs]. simpl. auto.
Qed.

(** ** Further properties of the agent *)

Lemma retry_from_all_fail {A} (f : nat -> A + raised) max_retries :
  forall remaining attempt last,
  (attempt + remaining = max_retries)%nat -> (1 <= remaining)%nat ->
  (forall i, (attempt <= i < max_retries)%nat -> exists n, f i = inr (Retryable n)) ->
  exists n, f (max_retries - 1)%nat = inr (Retryable n) /\
    fst (retry_from f max_retries attempt remaining last) = RRaise (Retryable n) /\
    count_calls (snd (retry_from f max_retries attempt remaining last)) = remaining /\
    count_sleeps (snd (retry_from f max_retries attempt remaining last)) = (remaining - 1)%nat.
Proof.
  induction remaining as [|r IH]; intros attempt last Hsum H1 Hf; [lia|].
  destruct (Hf attempt ltac:(lia)) as [n0 Hn0]. simpl. rewrite Hn0.
  destruct r as [|r'].
  - simpl. replace (attempt <? max_retries - 1)%nat with false
      by (symmetry; apply Nat.ltb_ge; lia).
    exists n0. replace (max_retries - 1)%nat with attempt by lia. simpl. auto.
  - destruct (IH (S attempt) (Some (Retryable n0)) ltac:(lia) ltac:(lia))
      as (n & Hn & Ho & Hc & Hs).
    { intros i Hi. apply Hf. lia. }
    destruct (retry_from f max_retries (S attempt) (S r') (Some (Retryable n0)))
      as [o tr] eqn:E. simpl in Ho, Hc, Hs.
    replace (attempt <? max_retries - 1)%nat with true
      by (symmetry; apply Nat.ltb_lt; lia).
    exists n. simpl. rewrite Hc, Hs. repeat split; auto; lia.
Qed.

Lemma retry_from_stops {A} (f : nat -> A + raised) max_retries k :
  (k < max_retries)%nat ->
  match f k with inl _ => True | inr (NotRetryable _) => True | inr (Retryable _) => False end ->
  forall remaining attempt last,
  (attempt + remaining = max_retries)%nat -> (attempt <= k)%nat ->
  (forall i, (attempt <= i < k)%nat -> exists n, f i = inr (Retryable n)) ->
  fst (retry_from f max_retries attempt remaining last) =
    match f k with inl v => RReturn v | inr e => RRaise e end /\
  count_calls (snd (retry_from f max_retries attempt remaining last)) = (k - attempt + 1)%nat /\
  count_sleeps (snd (retry_from f max_retries attempt remaining last)) = (k - attempt)%nat.
Proof.
  intros Hk Hstop.
  induction remaining as [|r IH]; intros attempt last Hsum Hle Hf; [lia|].
  simpl. destruct (Nat.eq_dec attempt k) as [-> | Hne].
  - destruct (f k) as [v | [n | n]]; [| contradiction |]; simpl;
      replace (k - k)%nat with 0%nat by lia; auto.
  - destruct (Hf attempt ltac:(lia)) as [n0 Hn0]. rewrite Hn0.
    destruct (IH (S attempt) (Some (Retryable n0)) ltac:(lia) ltac:(lia))
      as (Ho & Hc & Hs).
    { intros i Hi. apply Hf. lia. }
    destruct (retry_from f max_retries (S attempt) r (Some (Retryable n0)))
      as [o tr] eqn:E. simpl in Ho, Hc, Hs.
    replace (attempt <? max_retries - 1)%nat with true
      by (symmetry; apply Nat.ltb_lt; lia).
    simpl. rewrite Hc, Hs. repeat split; auto; lia.
Qed.

(** [retry_with_backoff]: when every one of the [max_retries >= 1]
    attempts raises a retryable exception, the wrapper calls the function
    [max_retries] times, sleeps [max_retries - 1] times, and re-raises the
    exception of the last attempt. *)
Theorem retry_all_attempts_fail {A} (f : nat -> A + raised) max_retries :
  (1 <= max_retries)%nat ->
  (forall i, (i < max_retries)%nat -> exists n, f i = inr (Retryable n)) ->
  exists n, f (max_retries - 1)%nat = inr (Retryable n) /\
    fst (retry_with_backoff max_retries f) = RRaise (Retryable n) /\
    count_calls (snd (retry_with_backoff max_retries f)) = max_retries /\
    count_sleeps (snd (retry_with_backoff max_retries f)) = (max_retries - 1)%nat.
Proof.
  intros H1 Hf. apply retry_from_all_fail; auto.
  intros i Hi. apply Hf. lia.
Qed.

Definition always_timeout (i : nat) : Z + raised := inr (Retryable i).

Lemma retry_all_attempts_fail_witness :
  fst (retry_with_backoff 3 always_timeout) = RRaise (Retryable 2) /\
  count_calls (snd (retry_with_backoff 3 always_timeout)) = 3%nat.
Proof.
  destruct (retry_all_attempts_fail always_timeout 3 ltac:(lia)
              (fun i _ => ex_intro _ i eq_refl)) as (n & Hn & Ho & Hc & _).
  injection Hn as <-. split; assumption.
Defined.

(** [retry_with_backoff]: when the attempts before attempt [k] raise
    retryable exceptions and attempt [k < max_retries] returns a value or
    raises any other exception, the wrapper returns that value or lets that
    exception through, after exactly [k + 1] calls and [k] sleeps. *)
Theorem retry_stops_at_first_final {A} (f : nat -> A + raised) max_retries k :
  (k < max_retries)%nat ->
  (forall i, (i < k)%nat -> exists n, f i = inr (Retryable n)) ->
  match f k with inl _ => True | inr (NotRetryable _) => True | inr (Retryable _) => False end ->
  fst (retry_with_backoff max_retries f) =
    match f k with inl v => RReturn v | inr e => RRaise e end /\
  count_calls (snd (retry_with_backoff max_retries f)) = S k /\
  count_sleeps (snd (retry_with_backoff max_retries f)) = k.
Proof.
  intros Hk Hf Hstop.
  destruct (retry_from_stops f max_retries k Hk Hstop max_retries 0 None
              ltac:(lia) ltac:(lia)) as (Ho & Hc & Hs).
  { intros i Hi. apply Hf. lia. }
  unfold retry_with_backoff. rewrite Ho, Hc, Hs.
  repeat split; f_equal; lia.
Qed.

Definition second_try_succeeds (i : nat) : Z + raised :=
  match i with O => inr (Retryable 0) | _ => inl 42 end.

Lemma retry_stops_at_first_final_witness :
  fst (retry_with_backoff 3 second_try_succeeds) = RReturn 42 /\
  count_calls (snd (retry_with_backoff 3 second_try_succeeds)) = 2%nat.
Proof.
  destruct (retry_stops_at_first_final second_try_succeeds 3 1 ltac:(lia)
    (fun i Hi => ex_intro _ 0%nat (match i as i' return (i' < 1)%nat ->
        second_try_succeeds i' = inr (Retryable 0) with
      | O => fun _ => eq_refl
      | S _ => fun H => False_ind _ (Nat.nlt_0_r _ (proj2 (Nat.succ_lt_mono _ _) H))
      end Hi)) I) as (Ho & Hc & _).
  split; assumption.
Defined.

Definition env_present (getenv : string -> option string) (v : string) : bool :=
  match getenv v with Some (String _ _) => true | _ => false end.

Lemma dict_get_set d k v k' :
  dict_get (dict_set d k v) k' = if String.eqb k' k then Some v else dict_get d k'.
Proof.
  induction d as [|[k0 v0] d IH]; simpl.
  - destruct (String.eqb k' k); reflexivity.
  - destruct (String.eqb k k0) eqn:E1; simpl.
    + apply String.eqb_eq in E1. subst k0.
      destruct (String.eqb k' k); reflexivity.
    + rewrite IH. destruct (String.eqb k' k0) eqn:E2; [|reflexivity].
      apply String.eqb_eq in E2. subst k0.
      destruct (String.eqb k' k) eqn:E3; [|reflexivity].
      apply String.eqb_eq in E3. subst k. rewrite String.eqb_refl in E1. discriminate.
Qed.

Lemma collect_env_spec getenv vars : forall d0 m0 d m,
  collect_env getenv vars d0 m0 = (d, m) ->
  (forall k, dict_get d k =
     if existsb (String.eqb k) vars && env_present getenv k then getenv k
     else dict_get d0 k) /\
  (forall v, In v m <-> In v m0 \/ (In v vars /\ env_present getenv v = false)).
Proof.
  induction vars as [|var vars IH]; intros d0 m0 d m H; simpl in H.
  - injection H as <- <-. split; [reflexivity|]. simpl. intuition.
  - assert (Hmissing : env_present getenv var = false ->
              collect_env getenv vars d0 (m0 ++ [var]) = (d, m)).
    { unfold env_present. intros Hp.
      destruct (getenv var) as [[|a s]|]; [exact H | discriminate | exact H]. }
    assert (Hset : env_present getenv var = true ->
              exists value, getenv var = Some value /\
              collect_env getenv vars (dict_set d0 var value) m0 = (d, m)).
    { unfold env_present. intros Hp.
      destruct (getenv var) as [[|a s]|]; [discriminate | | discriminate].
      eexists; split; [reflexivity | exact H]. }
    destruct (env_present getenv var) eqn:Ep.
    + destruct (Hset eq_refl) as (value & Hv & H').
      destruct (IH _ _ _ _ H') as [Hd Hm]. split.
      * intros k. rewrite Hd, dict_get_set. simpl.
        destruct (String.eqb k var) eqn:E; simpl.
        -- apply String.eqb_eq in E; subst k. rewrite Ep, Hv.
           destruct (existsb _ vars); reflexivity.
        -- reflexivity.
      * intros v. rewrite Hm. simpl. split.
        -- intros [H1 | [H1 H2]]; auto.
        -- intros [H1 | [[<- | H1] H2]]; auto. congruence.
    + destruct (IH _ _ _ _ (Hmissing eq_refl)) as [Hd Hm]. split.
      * intros k. rewrite Hd. simpl.
        destruct (String.eqb k var) eqn:E; simpl; [|reflexivity].
        apply String.eqb_eq in E; subst k. rewrite Ep.
        destruct (existsb _ vars); reflexivity.
      * intros v. rewrite Hm, in_app_iff. simpl. split.
        -- intros [[H1 | [<- | []]] | [H1 H2]]; auto.
        -- intros [H1 | [[<- | H1] H2]]; auto.
Qed.

Lemma existsb_eqb_In k vars : existsb (String.eqb k) vars = true <-> In k vars.
Proof.
  rewrite existsb_exists. split.
  - intros (x & Hx & E). apply String.eqb_eq in E. now subst.
  - intros H. exists k. split; [exact H | apply String.eqb_refl].
Qed.

(** [validate_environment_variables]: when it returns, every required
    variable is set to a non-empty value and the returned dict maps it to
    that value; the dict has no other keys. *)
Theorem validate_env_success getenv required_vars env_vars :
  validate_environment_variables getenv required_vars = inr env_vars ->
  (forall v, In v required_vars ->
     exists value, getenv v = Some value /\ value <> EmptyString /\
                   dict_get env_vars v = Some value) /\
  (forall k value, dict_get env_vars k = Some value -> In k required_vars).
Proof.
  unfold validate_environment_variables.
  destruct (collect_env getenv required_vars [] []) as [d m] eqn:E.
  destruct (collect_env_spec _ _ _ _ _ _ E) as [Hd Hm].
  destruct m as [|x m]; [|discriminate].
  intros H. injection H as <-. split.
  - intros v Hv. rewrite Hd.
    assert (Hp : env_present getenv v = true).
    { destruct (env_present getenv v) eqn:Ep; [reflexivity|].
      exfalso. apply (proj2 (Hm v)). right. auto. }
    apply existsb_eqb_In in Hv. rewrite Hv, Hp. simpl.
    unfold env_present in Hp. destruct (getenv v) as [[|a s]|]; try discriminate.
    eexists; repeat split; discriminate.
  - intros k value Hk. rewrite Hd in Hk.
    destruct (existsb (String.eqb k) required_vars) eqn:Ex.
    + now apply existsb_eqb_In.
    + discriminate.
Qed.

Definition sample_env (v : string) : option string :=
  if String.eqb v "GITHUB_TOKEN" then Some "ghp_x"%string
  else if String.eqb v "PR_NUMBER" then Some "7"%string else None.

Lemma validate_env_success_witness :
  validate_environment_variables sample_env ["GITHUB_TOKEN"; "PR_NUMBER"]%string =
    inr [("GITHUB_TOKEN", "ghp_x"); ("PR_NUMBER", "7")]%string /\
  dict_get [("GITHUB_TOKEN", "ghp_x"); ("PR_NUMBER", "7")]%string "PR_NUMBER" = Some "7"%string.
Proof.
  assert (H : validate_environment_variables sample_env ["GITHUB_TOKEN"; "PR_NUMBER"]%string =
    inr [("GITHUB_TOKEN", "ghp_x"); ("PR_NUMBER", "7")]%string) by reflexivity.
  split; [exact H|].
  destruct (proj1 (validate_env_success _ _ _ H) "PR_NUMBER"%string
              ltac:(simpl; auto)) as (value & Hg & _ & Hd).
  rewrite Hd. vm_compute in Hg. symmetry; exact Hg.
Defined.

(** The missing variables are collected in the order of [required_vars]. *)
Lemma collect_env_missing getenv vars : forall d0 m0,
  snd (collect_env getenv vars d0 m0) =
    (m0 ++ filter (fun v => negb (env_present getenv v)) vars)%list.
Proof.
  induction vars as [|var vars IH]; intros d0 m0; simpl.
  - symmetry. apply app_nil_r.
  - destruct (getenv var) as [[|a s]|] eqn:G;
      [ assert (Ep : env_present getenv var = false) by (unfold env_present; now rewrite G)
      | assert (Ep : env_present getenv var = true) by (unfold env_present; now rewrite G)
      | assert (Ep : env_present getenv var = false) by (unfold env_present; now rewrite G) ];
      rewrite Ep, IH; simpl; rewrite <- ?app_assoc; reflexivity.
Qed.

(** [validate_environment_variables]: it raises [ValueError] exactly when
    some required variable is unset or empty, and the error lists exactly
    those variables, in the order of [required_vars]. *)
Theorem validate_env_failure getenv required_vars :
  (forall missing, validate_environment_variables getenv required_vars = inl missing ->
     missing = filter (fun v => negb (env_present getenv v)) required_vars /\
     missing <> [] /\
     forall v, In v missing <->
       In v required_vars /\ (getenv v = None \/ getenv v = Some EmptyString)) /\
  ((exists v, In v required_vars /\ (getenv v = None \/ getenv v = Some EmptyString)) ->
     exists missing, validate_environment_variables getenv required_vars = inl missing).
Proof.
  unfold validate_environment_variables.
  pose proof (collect_env_missing getenv required_vars [] []) as Hf.
  destruct (collect_env getenv required_vars [] []) as [d m] eqn:E.
  simpl in Hf.
  destruct (collect_env_spec _ _ _ _ _ _ E) as [_ Hm].
  assert (Hp : forall v, env_present getenv v = false <->
                 getenv v = None \/ getenv v = Some EmptyString).
  { intros v. unfold env_present.
    destruct (getenv v) as [[|a s]|]; intuition congruence. }
  split.
  - intros missing H. destruct m as [|x m]; [discriminate|].
    injection H as <-. split; [exact Hf|]. split; [discriminate|].
    intros v. rewrite Hm, <- Hp. simpl. intuition.
  - intros (v & Hv & Hg). destruct m as [|x m]; [|eauto].
    exfalso. apply (proj2 (Hm v)). right. split; [exact Hv|]. now apply Hp.
Qed.

Lemma validate_env_failure_witness :
  validate_environment_variables sample_env ["ANTHROPIC_API_KEY"; "PR_NUMBER"]%string =
    inl ["ANTHROPIC_API_KEY"]%string /\
  ["ANTHROPIC_API_KEY"]%string =
    filter (fun v => negb (env_present sample_env v)) ["ANTHROPIC_API_KEY"; "PR_NUMBER"]%string.
Proof.
  assert (H : validate_environment_variables sample_env ["ANTHROPIC_API_KEY"; "PR_NUMBER"]%string =
    inl ["ANTHROPIC_API_KEY"]%string) by reflexivity.
  split; [exact H|].
  exact (proj1 (proj1 (validate_env_failure _ _) _ H)).
Defined.

(** [__init__]: once [validate_environment_variables] has returned, a
    required field [env_vars.get(var) or self.config.get(key)] is the
    environment's value; the configuration file is never used for it. *)
Theorem init_required_field_from_env getenv required_vars env_vars var config_value :
  validate_environment_variables getenv required_vars = inr env_vars ->
  In var required_vars ->
  init_field env_vars var config_value = getenv var.
Proof.
  intros H Hv.
  destruct (proj1 (validate_env_success _ _ _ H) var Hv) as (value & Hg & Hne & Hd).
  unfold init_field, py_or_str. rewrite Hd, Hg.
  destruct value; [contradiction | reflexivity].
Qed.

Lemma init_required_field_from_env_witness :
  init_field [("GITHUB_TOKEN", "ghp_x"); ("PR_NUMBER", "7")]%string "PR_NUMBER"
    (Some "99"%string) = Some "7"%string.
Proof.
  exact (init_required_field_from_env sample_env ["GITHUB_TOKEN"; "PR_NUMBER"]%string
           _ "PR_NUMBER"%string (Some "99"%string) eq_refl ltac:(simpl; auto)).
Defined.

(** *** [sanitize_input] *)

Lemma remove_nul_length s : (String.length (remove_nul s) <= String.length s)%nat.
Proof.
  induction s as [|a s IH]; simpl; [lia|].
  destruct (Ascii.eqb a "000"%char); simpl; lia.
Qed.

Lemma remove_nul_no_nul s : has_char "000"%char (remove_nul s) = false.
Proof.
  induction s as [|a s IH]; simpl; [reflexivity|].
  destruct (Ascii.eqb a "000"%char) eqn:E; simpl; [exact IH|].
  rewrite E, IH. reflexivity.
Qed.

Lemma remove_nul_id s : has_char "000"%char s = false -> remove_nul s = s.
Proof.
  induction s as [|a s IH]; simpl; [reflexivity|].
  intros H. apply orb_false_iff in H as [Ha Hs].
  rewrite Ha, IH by exact Hs. reflexivity.
Qed.

Lemma substring_0_length n s : (String.length (substring 0 n s) <= n)%nat.
Proof.
  revert s. induction n as [|n IH]; intros [|a s]; simpl; try lia.
  specialize (IH s). lia.
Qed.

Lemma substring_0_full n s : (String.length s <= n)%nat -> substring 0 n s = s.
Proof.
  revert s. induction n as [|n IH]; intros [|a s] H; simpl in *; try reflexivity; try lia.
  rewrite IH by lia. reflexivity.
Qed.

(** [sanitize_input(text, max_length)] returns at most [max_length]
    characters and no NUL character. *)
Lemma sanitize_nat_bounds text max_length :
  (String.length (sanitize_input text max_length) <= max_length)%nat /\
  has_char "000"%char (sanitize_input text max_length) = false.
Proof.
  unfold sanitize_input. destruct text as [|a t]; [simpl; split; [lia | reflexivity]|].
  set (t' := String a t).
  destruct (max_length <? String.length t')%nat eqn:E.
  - split; [|apply remove_nul_no_nul].
    etransitivity; [apply remove_nul_length | apply substring_0_length].
  - apply Nat.ltb_ge in E. split; [|apply remove_nul_no_nul].
    etransitivity; [apply remove_nul_length | exact E].
Qed.

Lemma sanitize_input_id text max_length :
  (String.length text <= max_length)%nat -> has_char "000"%char text = false ->
  sanitize_input text max_length = text.
Proof.
  intros Hl Hn. unfold sanitize_input. destruct text as [|a t]; [reflexivity|].
  replace (max_length <? String.length (String a t))%nat with false
    by (symmetry; apply Nat.ltb_ge; exact Hl).
  apply remove_nul_id, Hn.
Qed.

Lemma sanitize_nat_idempotent text max_length :
  sanitize_input (sanitize_input text max_length) max_length = sanitize_input text max_length /\
  (sanitize_input text max_length = text <->
   (String.length text <= max_length)%nat /\ has_char "000"%char text = false).
Proof.
  destruct (sanitize_nat_bounds text max_length) as [Hl Hn].
  split; [now apply sanitize_input_id|].
  split.
  - intros H. rewrite H in Hl, Hn. auto.
  - intros [H1 H2]. now apply sanitize_input_id.
Qed.

(** For a non-negative limit, [sanitize_input_int] is [sanitize_input]. *)
Lemma sanitize_input_int_of_nat text n :
  sanitize_input_int text (Z.of_nat n) = sanitize_input text n.
Proof.
  unfold sanitize_input_int, sanitize_input, py_prefix.
  destruct text as [|a t]; [reflexivity|].
  set (t' := String a t).
  replace (Z.of_nat (String.length t') >? Z.of_nat n) with (n <? String.length t')%nat.
  2:{ rewrite Z.gtb_ltb. destruct (n <? String.length t')%nat eqn:E; symmetry;
      [apply Nat.ltb_lt in E | apply Nat.ltb_ge in E];
      [apply Z.ltb_lt | apply Z.ltb_ge]; lia. }
  replace (0 <=? Z.of_nat n) with true by (symmetry; apply Z.leb_le; lia).
  rewrite Nat2Z.id. reflexivity.
Qed.

Lemma sanitize_input_int_nonneg text max_length :
  0 <= max_length ->
  sanitize_input_int text max_length = sanitize_input text (Z.to_nat max_length).
Proof.
  intros H. rewrite <- sanitize_input_int_of_nat, Z2Nat.id by exact H. reflexivity.
Qed.

(** [sanitize_input] never returns a NUL character, and for a
    non-negative [max_length] it returns at most [max_length] characters. *)
Theorem sanitize_input_bounds text max_length :
  has_char "000"%char (sanitize_input_int text max_length) = false /\
  (0 <= max_length ->
   Z.of_nat (String.length (sanitize_input_int text max_length)) <= max_length).
Proof.
  split.
  - unfold sanitize_input_int. destruct text as [|a t]; [reflexivity|].
    apply remove_nul_no_nul.
  - intros H. rewrite sanitize_input_int_nonneg by exact H.
    pose proof (proj1 (sanitize_nat_bounds text (Z.to_nat max_length))). lia.
Qed.

Lemma sanitize_input_bounds_witness :
  0 <= 2 /\ Z.of_nat (String.length (sanitize_input_int "ab c" 2)) <= 2.
Proof.
  split; [lia|].
  apply (proj2 (sanitize_input_bounds "ab c" 2)). lia.
Defined.

(** For a non-negative [max_length], [sanitize_input] is idempotent, and
    it leaves a text unchanged exactly when the text has at most
    [max_length] characters and no NUL. *)
Theorem sanitize_input_idempotent text max_length :
  0 <= max_length ->
  sanitize_input_int (sanitize_input_int text max_length) max_length =
    sanitize_input_int text max_length /\
  (sanitize_input_int text max_length = text <->
   Z.of_nat (String.length text) <= max_length /\ has_char "000"%char text = false).
Proof.
  intros H. rewrite !sanitize_input_int_nonneg by exact H.
  destruct (sanitize_nat_idempotent text (Z.to_nat max_length)) as [Hi Hf].
  split; [exact Hi|].
  rewrite Hf. split; intros [H1 H2]; split; auto; lia.
Qed.

Lemma sanitize_input_idempotent_witness :
  sanitize_input_int (sanitize_input_int "abc" 2) 2 = sanitize_input_int "abc" 2.
Proof.
  apply (proj1 (sanitize_input_idempotent "abc" 2 ltac:(lia))).
Defined.

(** For a negative [max_length], [sanitize_input] drops the last
    [-max_length] characters (all of them when the text is shorter) and the
    NUL characters: [sanitize_input('abc', -1) = 'ab'], which is longer
    than the limit, and [sanitize_input] is then not idempotent. *)
Theorem sanitize_input_negative text max_length :
  max_length < 0 ->
  sanitize_input_int text max_length =
    remove_nul (substring 0 (String.length text - Z.to_nat (- max_length)) text) /\
  sanitize_input_int "abc" (-1) = "ab"%string /\
  sanitize_input_int (sanitize_input_int "abc" (-1)) (-1) <> sanitize_input_int "abc" (-1).
Proof.
  intros H. split; [|split; [reflexivity | discriminate]].
  unfold sanitize_input_int, py_prefix. destruct text as [|a t]; [reflexivity|].
  replace (Z.of_nat (String.length (String a t)) >? max_length) with true
    by (symmetry; apply Z.gtb_lt; lia).
  replace (0 <=? max_length) with false by (symmetry; apply Z.leb_gt; lia).
  reflexivity.
Qed.

Lemma sanitize_input_negative_witness :
  sanitize_input_int ("a" ++ String "000"%char "bcd") (-2) = "ab"%string.
Proof.
  rewrite (proj1 (sanitize_input_negative ("a" ++ String "000"%char "bcd") (-2) ltac:(lia))).
  vm_compute. reflexivity.
Defined.

(** *** The diff size check of [analyze_code_with_ai] *)

Fixpoint all_ascii7 (s : string) : bool :=
  match s with
  | EmptyString => true
  | String a r => (nat_of_ascii a <? 128)%nat && all_ascii7 r
  end.

Lemma utf8_length_ge s : (String.length s <= utf8_length s)%nat.
Proof.
  induction s as [|a s IH]; simpl; [lia|].
  unfold utf8_char_length. destruct (nat_of_ascii a <? 128)%nat; lia.
Qed.

Lemma utf8_length_ascii7 s : all_ascii7 s = true -> utf8_length s = String.length s.
Proof.
  induction s as [|a s IH]; simpl; [reflexivity|].
  intros H. apply andb_prop in H as [Ha Hs].
  unfold utf8_char_length. rewrite Ha, IH by exact Hs. reflexivity.
Qed.

Lemma substring_0_exact n s :
  (n <= String.length s)%nat -> String.length (substring 0 n s) = n.
Proof.
  revert s. induction n as [|n IH]; intros [|a s] H; simpl in *; try reflexivity; try lia.
  rewrite IH by lia. reflexivity.
Qed.

Lemma has_char_substring_0 c n s :
  has_char c s = false -> has_char c (substring 0 n s) = false.
Proof.
  revert s. induction n as [|n IH]; intros [|a s] H; simpl in *; try reflexivity.
  apply orb_false_iff in H as [Ha Hs]. rewrite Ha, IH by exact Hs. reflexivity.
Qed.

(** [analyze_code_with_ai] refuses, with a [ValueError] and before any
    request, a NUL-free diff of more than [max_diff_size >= 1] characters:
    cutting it to [2 * max_diff_size] characters never brings it under
    the byte limit. *)
Theorem analyze_rejects_long_diff diff max_diff_size :
  (1 <= max_diff_size)%nat -> has_char "000"%char diff = false ->
  (max_diff_size < String.length diff)%nat ->
  analyze_input_check diff max_diff_size = Err ValueError.
Proof.
  intros H1 Hn Hlen. unfold analyze_input_check, sanitize_input.
  destruct diff as [|a t] eqn:Ed; [simpl in Hlen; lia|]. rewrite <- Ed in *.
  assert (Hsz : (max_diff_size <
     String.length (remove_nul (if (max_diff_size * 2 <? String.length diff)%nat
                                then substring 0 (max_diff_size * 2) diff else diff)))%nat).
  { destruct (max_diff_size * 2 <? String.length diff)%nat eqn:E.
    - apply Nat.ltb_lt in E.
      rewrite remove_nul_id by (apply has_char_substring_0; exact Hn).
      rewrite substring_0_exact by lia. lia.
    - rewrite remove_nul_id by exact Hn. exact Hlen. }
  unfold validate_diff_size.
  match goal with |- context [utf8_length ?x] =>
    pose proof (utf8_length_ge x) end.
  replace (max_diff_size <? utf8_length _)%nat with true
    by (symmetry; apply Nat.ltb_lt; lia).
  reflexivity.
Qed.

Lemma analyze_rejects_long_diff_witness :
  analyze_input_check "0123456789"%string 4 = Err ValueError.
Proof.
  apply analyze_rejects_long_diff; [lia | reflexivity | simpl; lia].
Defined.

(** [analyze_code_with_ai] accepts a NUL-free ASCII diff of at most
    [max_diff_size] characters and passes it on unchanged. *)
Theorem analyze_accepts_small_ascii_diff diff max_diff_size :
  all_ascii7 diff = true -> has_char "000"%char diff = false ->
  (String.length diff <= max_diff_size)%nat ->
  analyze_input_check diff max_diff_size = Ok diff.
Proof.
  intros Ha Hn Hlen. unfold analyze_input_check.
  rewrite sanitize_input_id by (exact Hn || lia).
  unfold validate_diff_size. rewrite utf8_length_ascii7 by exact Ha.
  replace (max_diff_size <? String.length diff)%nat with false
    by (symmetry; apply Nat.ltb_ge; exact Hlen).
  reflexivity.
Qed.

Lemma analyze_accepts_small_ascii_diff_witness :
  analyze_input_check scenario_A 1000 = Ok scenario_A.
Proof.
  apply analyze_accepts_small_ascii_diff; [vm_compute; reflexivity | vm_compute; reflexivity |].
  vm_compute. lia.
Defined.

(** With [max_diff_size = 0] the check never fails: every diff is cut to
    the empty string, which is sent to the model instead of the diff. *)
Theorem analyze_zero_limit_empties_diff diff :
  analyze_input_check diff 0 = Ok EmptyString.
Proof.
  unfold analyze_input_check, sanitize_input.
  destruct diff as [|a t]; [reflexivity|]. simpl. reflexivity.
Qed.

(** *** More of [_calculate_diff_position] and [post_line_comments] *)

Lemma step_hunk_position_nonneg m fp t st l st' :
  0 <= hunk_position st -> step m fp t st l = Continue st' -> 0 <= hunk_position st'.
Proof.
  intros H. unfold step.
  destruct (startswith "diff --git" l).
  { destruct (header_path l); intros E; injection E as <-; simpl; lia. }
  destruct (startswith "@@" l).
  { destruct (in_target_file st); [|intros E; injection E as <-; lia].
    destruct (search_plus_digits l) as [ds|].
    - destruct (py_int_of_digits m ds); [|discriminate].
      intros E; injection E as <-; simpl; lia.
    - intros E; injection E as <-; simpl; lia. }
  destruct (in_target_file st); [|intros E; injection E as <-; lia].
  destruct (is_counted l); [|intros E; injection E as <-; lia].
  destruct (new_file_line st + 1 =? t); [discriminate|].
  intros E; injection E as <-; simpl; lia.
Qed.

Lemma scan_position_positive m fp t lines : forall st p,
  0 <= hunk_position st -> scan m fp t st lines = Ok (Some p) -> 1 <= p.
Proof.
  induction lines as [|l lines IH]; intros st p H; simpl; [discriminate|].
  destruct (step m fp t st l) as [st'|q|e] eqn:E.
  - apply IH. eapply step_hunk_position_nonneg; eauto.
  - intros Hq. injection Hq as <-.
    apply step_return in E as (_ & _ & _ & _ & ->). lia.
  - discriminate.
Qed.

(** [_calculate_diff_position] only ever returns positions [>= 1]. *)
Theorem diff_position_positive m diff fp t p :
  _calculate_diff_position m diff fp t = Some p -> 1 <= p.
Proof.
  unfold _calculate_diff_position, calc_logged.
  destruct (scan m fp t init_state (split_char "010"%char diff)) as [[q|]|e] eqn:E;
    simpl; try discriminate.
  intros H. injection H as <-. eapply scan_position_positive; [|exact E]. simpl. lia.
Qed.

Lemma diff_position_positive_witness :
  _calculate_diff_position 4300 scenario_A "src/app.py" 12 = Some 3 /\ 1 <= 3.
Proof.
  assert (H : _calculate_diff_position 4300 scenario_A "src/app.py" 12 = Some 3)
    by (vm_compute; reflexivity).
  split; [exact H | exact (diff_position_positive _ _ _ _ _ H)].
Defined.

Lemma build_comments_err int_of_str resolve cs c e :
  In c cs -> process_comment int_of_str resolve c = Err e ->
  exists e', build_comments int_of_str resolve cs = Err e'.
Proof.
  induction cs as [|c' cs IH]; simpl; [contradiction|].
  intros [<- | Hin] Hc.
  - rewrite Hc. eauto.
  - destruct (process_comment int_of_str resolve c'); [|eauto].
    destruct (IH Hin Hc) as [e' He']. rewrite He'. eauto.
Qed.

(** [post_line_comments]: one of the first 10 comments with a non-empty
    path whose [line] field [int()] rejects makes the whole batch fail:
    no inline comment is posted, not even the valid ones. *)
Theorem post_line_comments_bad_line_drops_all int_of_str m diff cs c e :
  In c (firstn 10 cs) ->
  sanitize_input (get_str (lc_file c)) 500 <> EmptyString ->
  py_int int_of_str (match lc_line c with Some v => v | None => PyInt 1 end) = Err e ->
  post_line_comments int_of_str m diff cs = None.
Proof.
  intros Hin Hfp Hline.
  assert (Hc : process_comment int_of_str (_calculate_diff_position m diff) c = Err e).
  { unfold process_comment.
    destruct (sanitize_input (get_str (lc_file c)) 500); [contradiction|].
    rewrite Hline. reflexivity. }
  unfold post_line_comments.
  destruct cs as [|c0 cs]; [reflexivity|]. destruct diff; [reflexivity|].
  destruct (build_comments_err _ _ _ _ _ Hin Hc) as [e' ->]. reflexivity.
Qed.

Definition bad_line_comment : line_comment :=
  {| lc_file := Some "src/app.py"%string; lc_line := Some (PyStr "eleven"%string);
     lc_concern := Some "x"%string; lc_suggestion := None |}.

Lemma post_line_comments_bad_line_drops_all_witness :
  post_line_comments (fun _ => None) 4300 scenario_A
    [sample_comment "src/app.py" 11; bad_line_comment] = None.
Proof.
  apply (post_line_comments_bad_line_drops_all (fun _ => None) 4300 scenario_A _
           bad_line_comment ValueError).
  - simpl. auto.
  - vm_compute. discriminate.
  - reflexivity.
Defined.

(** *** Unwrapping the model's JSON *)

Local Open Scope string_scope.

Lemma str_append_assoc (a b c : string) : (a ++ b) ++ c = a ++ b ++ c.
Proof. induction a as [|x a IH]; simpl; [reflexivity | now rewrite IH]. Qed.

Lemma str_length_append (a b : string) :
  String.length (a ++ b) = (String.length a + String.length b)%nat.
Proof. induction a as [|x a IH]; simpl; [reflexivity | now rewrite IH]. Qed.

Lemma startswith_self_app (a b : string) : startswith a (a ++ b) = true.
Proof. induction a as [|x a IH]; simpl; [reflexivity | now rewrite Ascii.eqb_refl, IH]. Qed.

Lemma find_from_self (n b : string) i : find_from n (n ++ b) i = Some i.
Proof.
  pose proof (startswith_self_app n b) as H.
  destruct (n ++ b) as [|c r]; cbn [find_from]; rewrite H; reflexivity.
Qed.

Lemma startswith_bt_nobt (x t : string) :
  has_char "`"%char t = false -> startswith (String "`"%char x) t = false.
Proof.
  destruct t as [|a r]; [reflexivity|].
  cbn [has_char startswith]. intros H. apply orb_false_iff in H as [Ha _].
  rewrite Ascii.eqb_sym, Ha. reflexivity.
Qed.

Lemma startswith_bt_head (x r : string) a :
  Ascii.eqb a "`"%char = false -> startswith (String "`"%char x) (String a r) = false.
Proof.
  intros Ha. cbn [startswith]. rewrite Ascii.eqb_sym, Ha. reflexivity.
Qed.

Lemma find_from_skip (x pre s : string) i :
  has_char "`"%char pre = false ->
  find_from (String "`"%char x) (pre ++ s) i =
  find_from (String "`"%char x) s (i + String.length pre).
Proof.
  revert i. induction pre as [|a pre IH]; intros i H; cbn [append String.length].
  - now rewrite Nat.add_0_r.
  - cbn [has_char] in H. apply orb_false_iff in H as [Ha Hp].
    cbn [find_from]. rewrite startswith_bt_head by exact Ha.
    rewrite IH by exact Hp. f_equal. lia.
Qed.

Lemma rfind_fence_none t i :
  has_char "`"%char t = false -> rfind_from fence t i = None.
Proof.
  revert i. induction t as [|a t IH]; intros i H; [reflexivity|].
  pose proof H as H'. simpl in H'. apply orb_false_iff in H' as [_ Ht].
  unfold fence. cbn [rfind_from]. rewrite IH by exact Ht.
  rewrite startswith_bt_nobt by exact H. reflexivity.
Qed.

Lemma rfind_cons n a r i :
  rfind_from n (String a r) i =
  match rfind_from n r (S i) with
  | Some j => Some j
  | None => if startswith n (String a r) then Some i else None
  end.
Proof. reflexivity. Qed.

Lemma rfind_fence_last s post i :
  has_char "`"%char post = false ->
  rfind_from fence (s ++ fence ++ post) i = Some (i + String.length s)%nat.
Proof.
  intros Hp. revert i. induction s as [|a s IH]; intros i.
  - change (EmptyString ++ fence ++ post)
      with (String "`" (String "`" (String "`" post))).
    assert (H1 : startswith fence (String "`" post) = false).
    { change (startswith (String "`" "`") post = false). now apply startswith_bt_nobt. }
    assert (H2 : startswith fence (String "`" (String "`" post)) = false).
    { change (startswith (String "`" "") post = false). now apply startswith_bt_nobt. }
    assert (H3 : startswith fence (String "`" (String "`" (String "`" post))) = true).
    { exact (startswith_self_app fence post). }
    rewrite !rfind_cons, rfind_fence_none by exact Hp.
    rewrite H1, H2, H3. simpl. rewrite Nat.add_0_r. reflexivity.
  - change ((String a s ++ fence ++ post)) with (String a (s ++ fence ++ post)).
    rewrite rfind_cons, IH. simpl. f_equal. lia.
Qed.

Lemma substring_app_skip (p s : string) k n :
  substring (String.length p + k) n (p ++ s) = substring k n s.
Proof. induction p as [|a p IH]; simpl; [reflexivity | exact IH]. Qed.

Lemma substring_len_0 n s : substring n 0 s = EmptyString.
Proof.
  revert s. induction n as [|n IH]; intros [|a s]; simpl; auto.
Qed.

Lemma substring_0_app (b t : string) : substring 0 (String.length b) (b ++ t) = b.
Proof. induction b as [|a b IH]; simpl; [now destruct t | now rewrite IH]. Qed.

(** [analyze_code_with_ai]: an answer made of text without backticks, a
    [```json] fence, any body, a closing [```] and text without backticks
    yields the stripped body for [json.loads]. *)
Theorem extract_json_fenced pre body post :
  has_char "`"%char pre = false -> has_char "`"%char post = false ->
  extract_json_text (pre ++ json_fence ++ body ++ fence ++ post) = strip body.
Proof.
  intros Hpre Hpost.
  assert (Hfind : find_from json_fence (pre ++ json_fence ++ body ++ fence ++ post) 0
                  = Some (String.length pre)).
  { change json_fence with (String "`" "``json") at 1.
    rewrite find_from_skip by exact Hpre. apply find_from_self. }
  assert (Hrfind : rfind_from fence (pre ++ json_fence ++ body ++ fence ++ post) 0
                   = Some (String.length pre + 7 + String.length body)%nat).
  { replace (pre ++ json_fence ++ body ++ fence ++ post)
      with ((pre ++ json_fence ++ body) ++ fence ++ post)
      by (now rewrite !str_append_assoc).
    rewrite rfind_fence_last by exact Hpost.
    rewrite !str_length_append. f_equal. simpl. lia. }
  unfold extract_json_text, str_contains, str_index, str_rindex.
  rewrite Hfind, Hrfind. f_equal. unfold slice.
  replace (String.length pre + 7 + String.length body - (String.length pre + 7))%nat
    with (String.length body) by lia.
  replace (String.length pre + 7)%nat
    with (String.length pre + (String.length json_fence + 0))%nat by reflexivity.
  rewrite substring_app_skip, substring_app_skip, substring_0_app. reflexivity.
Qed.

Lemma extract_json_fenced_witness :
  extract_json_text ("Review:" ++ json_fence ++ " {a: 1} " ++ fence ++ " end") = "{a: 1}".
Proof.
  rewrite extract_json_fenced by reflexivity. vm_compute. reflexivity.
Defined.

(** [analyze_code_with_ai]: an answer whose only fence is an unclosed
    [```json] hands the empty string to [json.loads] (which then raises),
    whatever JSON follows the fence. *)
Theorem extract_json_unclosed pre rest :
  has_char "`"%char pre = false -> has_char "`"%char rest = false ->
  extract_json_text (pre ++ json_fence ++ rest) = EmptyString.
Proof.
  intros Hpre Hrest.
  assert (Hfind : find_from json_fence (pre ++ json_fence ++ rest) 0
                  = Some (String.length pre)).
  { change json_fence with (String "`" "``json") at 1.
    rewrite find_from_skip by exact Hpre. apply find_from_self. }
  assert (Hrfind : rfind_from fence (pre ++ json_fence ++ rest) 0
                   = Some (String.length pre)).
  { change (json_fence ++ rest) with (fence ++ ("json" ++ rest)).
    now rewrite rfind_fence_last by exact Hrest. }
  unfold extract_json_text, str_contains, str_index, str_rindex.
  rewrite Hfind, Hrfind. unfold slice.
  replace (String.length pre - (String.length pre + 7))%nat with 0%nat by lia.
  rewrite substring_len_0. reflexivity.
Qed.

Lemma extract_json_unclosed_witness :
  extract_json_text ("Here it is: " ++ json_fence ++ " {a: 1}") = EmptyString.
Proof. apply extract_json_unclosed; reflexivity. Defined.

(** *** The Jira ticket format *)

Fixpoint all_chars (p : ascii -> bool) (s : string) : bool :=
  match s with
  | EmptyString => true
  | String a r => p a && all_chars p r
  end.

Lemma digits_then_end_iff s : forall seen,
  digits_then_end s seen = true <->
  exists D, all_chars is_digit D = true /\ (seen = true \/ D <> "") /\
            (s = D \/ s = D ++ NL).
Proof.
  induction s as [|a r IH]; intros seen; split.
  - intros H. exists "". simpl in H. auto.
  - intros (D & HD & Hseen & [Hs | Hs]).
    + subst D. simpl. destruct Hseen as [-> | H]; [reflexivity | contradiction].
    + destruct D; discriminate.
  - cbn [digits_then_end]. destruct (is_digit a) eqn:Ea.
    + intros H. apply IH in H as (D & HD & _ & Hs).
      exists (String a D). split; [simpl; now rewrite Ea, HD|].
      split; [right; discriminate|].
      destruct Hs as [-> | ->]; auto.
    + intros H. apply andb_prop in H as [H Hr]. apply andb_prop in H as [Hs Ha].
      apply Ascii.eqb_eq in Ha. apply String.eqb_eq in Hr. subst.
      exists "". auto.
  - intros (D & HD & Hseen & Hs). destruct D as [|d D].
    + destruct Hseen as [-> | H]; [|contradiction].
      destruct Hs as [Hs | Hs]; [discriminate|].
      injection Hs as -> ->. reflexivity.
    + simpl in HD. apply andb_prop in HD as [Hd HD].
      destruct Hs as [Hs | Hs]; injection Hs as <- ->; cbn [digits_then_end];
        rewrite Hd; apply IH; exists D; repeat split; auto.
Qed.

Lemma upper_then_digits_iff s : forall seen,
  upper_then_digits s seen = true <->
  exists L r, all_chars is_upper L = true /\ (seen = true \/ L <> "") /\
              s = L ++ "-" ++ r /\ digits_then_end r false = true.
Proof.
  induction s as [|a s IH]; intros seen; split.
  - discriminate.
  - intros (L & r & _ & _ & Hs & _). destruct L; discriminate.
  - cbn [upper_then_digits]. destruct (is_upper a) eqn:Ea.
    + intros H. apply IH in H as (L & r & HL & _ & Hs & Hr).
      exists (String a L), r. simpl. rewrite Ea, HL, Hs. repeat split; auto.
      right; discriminate.
    + intros H. apply andb_prop in H as [H Hr]. apply andb_prop in H as [Hs Ha].
      apply Ascii.eqb_eq in Ha. subst. exists "", s. auto.
  - intros (L & r & HL & Hseen & Hs & Hr). destruct L as [|l L].
    + destruct Hseen as [-> | H]; [|contradiction].
      simpl in Hs. injection Hs as -> ->. simpl. exact Hr.
    + simpl in HL. apply andb_prop in HL as [Hl HL].
      injection Hs as <- ->. cbn [upper_then_digits]. rewrite Hl.
      apply IH. exists L, r. auto.
Qed.

(** [update_jira_ticket] accepts a ticket exactly when it is one or more
    of [A-Z], a [-] and one or more ASCII digits, optionally followed by a
    single newline ([$] also matches before a final newline). *)
Theorem ticket_format_iff ticket :
  valid_ticket_format ticket = true <->
  exists L D, L <> "" /\ all_chars is_upper L = true /\
              D <> "" /\ all_chars is_digit D = true /\
              (ticket = L ++ "-" ++ D \/ ticket = L ++ "-" ++ D ++ NL).
Proof.
  unfold valid_ticket_format. rewrite upper_then_digits_iff. split.
  - intros (L & r & HL & [H | HLne] & -> & Hr); [discriminate|].
    apply digits_then_end_iff in Hr as (D & HD & [H | HDne] & [-> | ->]); [discriminate|discriminate| |].
    + exists L, D. repeat split; auto.
    + exists L, D. repeat split; auto.
  - intros (L & D & HLne & HL & HDne & HD & Hs).
    destruct Hs as [-> | ->]; [exists L, D | exists L, (D ++ NL)];
      repeat split; auto; apply digits_then_end_iff; exists D; auto.
Qed.

Lemma ticket_format_iff_witness :
  valid_ticket_format ("PROJ-12" ++ NL) = true.
Proof.
  apply ticket_format_iff. exists "PROJ", "12".
  repeat split; try discriminate; try reflexivity. right. reflexivity.
Defined.

(** [items_of_kind] reads a concatenation of node lists piecewise. *)
Lemma items_of_kind_app kind a b :
  items_of_kind kind (a ++ b)%list = (items_of_kind kind a ++ items_of_kind kind b)%list.
Proof.
  induction a as [|n a IH]; [reflexivity|].
  cbn [items_of_kind app]. rewrite IH. apply app_assoc.
Qed.

Lemma doc_list_texts_body kind content :
  doc_list_texts kind (jira_comment_body content) = items_of_kind kind content.
Proof. reflexivity. Qed.

Lemma item_texts_of_list_items (l : list string) :
  flat_map item_text (map (fun s => jlist_item (sanitize_input s 1000)) l)
  = map (fun s => sanitize_input s 1000) l.
Proof.
  induction l as [|s l IH]; [reflexivity|].
  cbn [map flat_map]. rewrite IH. reflexivity.
Qed.

Lemma items_strs_RStr l : items_strs (map RStr l) = Some l.
Proof. induction l as [|x l IH]; simpl; [reflexivity|]. rewrite IH. reflexivity. Qed.

Lemma items_strs_chars l :
  items_strs (map (fun c => RStr (String c EmptyString)) l) =
    Some (map (fun c => String c EmptyString) l).
Proof. induction l as [|x l IH]; simpl; [reflexivity|]. rewrite IH. reflexivity. Qed.

(** [sanitize_input] raises on an item of a review list exactly when the
    item is a truthy non-string value. *)
Lemma items_strs_none l : items_strs l = None <-> In ROther l.
Proof.
  induction l as [|i l IH]; simpl; [split; [discriminate | intros []]|].
  destruct i; simpl.
  - destruct (items_strs l) as [ss|]; rewrite <- IH; intuition discriminate.
  - destruct (items_strs l) as [ss|]; rewrite <- IH; intuition discriminate.
  - split; auto.
Qed.

Lemma field_texts_ok f :
  field_texts f <> None <-> f <> FOther /\ (forall l, f = FArr l -> ~ In ROther l).
Proof.
  destruct f as [l|s|ks| |]; unfold field_texts, field_items.
  - split.
    + intros H. split; [discriminate|]. intros l' E. injection E as <-.
      rewrite <- items_strs_none. exact H.
    + intros [_ H]. rewrite items_strs_none. exact (H l eq_refl).
  - rewrite items_strs_chars. split; [|discriminate].
    intros _. split; [discriminate | intros l E; discriminate].
  - rewrite items_strs_RStr. split; [|discriminate].
    intros _. split; [discriminate | intros l E; discriminate].
  - split; [|discriminate]. intros _. split; [discriminate | intros l E; discriminate].
  - split; [intros H; exfalso; apply H; reflexivity | intros [H _]; exfalso; apply H; reflexivity].
Qed.

Lemma item_str_ok i : item_str i <> None <-> i <> ROther.
Proof. destruct i; simpl; split; intros H; try discriminate; exfalso; apply H; reflexivity. Qed.

(** On string values, [update_jira_review] is [update_jira_ticket]. *)
Lemma update_jira_review_strings jira_present jira_url jira_ticket pr_number pr_title repo
    issue_fetched reqs steps :
  update_jira_review jira_present jira_url (RStr jira_ticket) pr_number (RStr pr_title) repo
    issue_fetched (FArr (map RStr reqs)) (FArr (map RStr steps)) =
  update_jira_ticket jira_present jira_url jira_ticket pr_number pr_title repo
    issue_fetched reqs steps.
Proof.
  unfold update_jira_review, update_jira_ticket, field_texts, field_items.
  rewrite !items_strs_RStr. reflexivity.
Qed.

(** X16 (update_jira_ticket): a comment is posted exactly when a Jira
    client is configured, the ticket is a string matching [^[A-Z]+-\d+$],
    the issue could be fetched, and [sanitize_input] raises on none of the
    values it is given: the PR title is not a truthy non-string, and each
    of the two review fields is neither a truthy scalar nor an array
    holding a truthy non-string. It is posted to the issue's REST comment
    URL. *)
Theorem jira_update_gating jira_present jira_url jira_ticket pr_number pr_title repo
    issue_fetched reqs steps :
  (update_jira_review jira_present jira_url jira_ticket pr_number pr_title repo
     issue_fetched reqs steps <> None
   <-> jira_present = true /\
       (exists t, jira_ticket = RStr t /\ valid_ticket_format t = true) /\
       issue_fetched = true /\
       pr_title <> ROther /\
       (reqs <> FOther /\ forall l, reqs = FArr l -> ~ In ROther l) /\
       (steps <> FOther /\ forall l, steps = FArr l -> ~ In ROther l)) /\
  (forall url payload,
     update_jira_review jira_present jira_url jira_ticket pr_number pr_title repo
       issue_fetched reqs steps = Some (url, payload) ->
     exists t, jira_ticket = RStr t /\
       url = (jira_url ++ "/rest/api/3/issue/" ++ t ++ "/comment")%string).
Proof.
  unfold update_jira_review.
  destruct jira_ticket as [t| |].
  2, 3: split; [split; [intros H; exfalso; apply H; reflexivity
                       | intros (_ & (t & Ht & _) & _); discriminate]
               | intros url payload H; discriminate].
  assert (Hnonempty : valid_ticket_format t = true -> String.eqb t "" = false).
  { intros Hv. destruct t; [discriminate Hv | reflexivity]. }
  split.
  - split.
    + intros H.
      destruct jira_present; [|contradiction]. cbn [negb orb] in H.
      destruct (String.eqb t "") eqn:E0; [contradiction|].
      destruct (valid_ticket_format t) eqn:Ev; [|contradiction]. cbn [negb] in H.
      destruct issue_fetched; [|contradiction]. cbn [negb] in H.
      destruct (item_str pr_title) eqn:Et; [|contradiction].
      destruct (field_texts reqs) eqn:Er; [|contradiction].
      destruct (field_texts steps) eqn:Es; [|contradiction].
      split; [reflexivity|]. split; [exists t; auto|]. split; [reflexivity|].
      split; [apply item_str_ok; rewrite Et; discriminate|].
      split; apply field_texts_ok; [rewrite Er | rewrite Es]; discriminate.
    + intros (-> & (t' & Ht & Hv) & -> & Hti & Hr & Hs).
      injection Ht as <-. rewrite (Hnonempty Hv), Hv. cbn [negb orb].
      destruct (item_str pr_title) eqn:Et; [|exfalso; apply (proj2 (item_str_ok _) Hti Et)].
      destruct (field_texts reqs) eqn:Er; [|exfalso; apply (proj2 (field_texts_ok _) Hr Er)].
      destruct (field_texts steps) eqn:Es; [|exfalso; apply (proj2 (field_texts_ok _) Hs Es)].
      discriminate.
  - intros url payload.
    destruct (negb jira_present || String.eqb t ""); [discriminate|].
    destruct (negb (valid_ticket_format t)); [discriminate|].
    destruct (negb issue_fetched); [discriminate|].
    destruct (item_str pr_title), (field_texts reqs), (field_texts steps); try discriminate.
    intros H. injection H as <- _. exists t. auto.
Qed.

Lemma jira_update_gating_witness :
  update_jira_review true "https://acme.atlassian.net" (RStr "PROJ-12") "7" (RStr "Fix")
    "acme/app" true (FArr [RStr "login works"; RFalsy]) FFalsy <> None /\
  update_jira_review true "https://acme.atlassian.net" (RStr "PROJ-12") "7" (RStr "Fix")
    "acme/app" true (FArr [RStr "login works"; ROther]) FFalsy = None.
Proof.
  split.
  - apply (proj2 (proj1 (jira_update_gating true "https://acme.atlassian.net" (RStr "PROJ-12")
             "7" (RStr "Fix") "acme/app" true (FArr [RStr "login works"; RFalsy]) FFalsy))).
    split; [reflexivity|]. split; [exists "PROJ-12"%string; split; reflexivity|].
    split; [reflexivity|]. split; [discriminate|].
    split; split; try discriminate.
    intros l E. injection E as <-. simpl. intros [H | [H | []]]; discriminate.
  - vm_compute. reflexivity.
Defined.

(** X17 (update_jira_ticket): the bullet list of the posted document holds
    the review's testing requirements and the ordered list its manual
    testing steps, in order, each passed through [sanitize_input] with
    [max_length=1000]; an empty list gives no list node. *)
Theorem jira_comment_lists jira_present jira_url jira_ticket pr_number pr_title repo
    issue_fetched reqs steps url payload :
  update_jira_ticket jira_present jira_url jira_ticket pr_number pr_title repo
    issue_fetched reqs steps = Some (url, payload) ->
  doc_list_texts "bulletList" payload = map (fun r => sanitize_input r 1000) reqs /\
  doc_list_texts "orderedList" payload = map (fun s => sanitize_input s 1000) steps.
Proof.
  unfold update_jira_ticket.
  destruct (negb jira_present || String.eqb jira_ticket ""); [discriminate|].
  destruct (negb (valid_ticket_format jira_ticket)); [discriminate|].
  destruct (negb issue_fetched); [discriminate|].
  intros H. injection H as _ <-.
  rewrite !doc_list_texts_body. unfold jira_content.
  rewrite !items_of_kind_app.
  split.
  - destruct reqs as [|r rs]; destruct steps as [|s ss];
      cbn [items_of_kind app]; simpl; rewrite ?app_nil_r;
      try reflexivity; rewrite ?item_texts_of_list_items; try reflexivity.
  - destruct reqs as [|r rs]; destruct steps as [|s ss];
      cbn [items_of_kind app]; simpl; rewrite ?app_nil_r;
      try reflexivity; rewrite ?item_texts_of_list_items; try reflexivity.
Qed.

Lemma jira_comment_lists_witness :
  exists payload,
    update_jira_ticket true "https://acme.atlassian.net" "PROJ-12" "7" "Fix" "acme/app" true
      ["login works"; "logout works"] ["open /login"] =
      Some ("https://acme.atlassian.net/rest/api/3/issue/PROJ-12/comment"%string, payload) /\
    doc_list_texts "bulletList" payload = ["login works"; "logout works"]%string /\
    doc_list_texts "orderedList" payload = ["open /login"]%string.
Proof.
  eexists. split; [vm_compute; reflexivity|].
  apply (jira_comment_lists true "https://acme.atlassian.net" "PROJ-12" "7" "Fix" "acme/app" true
           ["login works"; "logout works"] ["open /login"]
           "https://acme.atlassian.net/rest/api/3/issue/PROJ-12/comment"%string).
  vm_compute. reflexivity.
Defined.

(** X18 (validate_file_path, read_file): a path containing [..] is
    rejected whatever the file system holds, and reading it gives the
    empty string. *)
Theorem read_file_rejects_dotdot resolve fs filepath :
  str_contains ".." filepath = true ->
  validate_file_path resolve fs filepath = false /\ read_file resolve fs filepath = EmptyString.
Proof.
  intros Hdd. unfold read_file, validate_file_path.
  destruct (resolve filepath); [rewrite Hdd|]; split; reflexivity.
Qed.

Definition sample_fs (p : string) : option fs_entry :=
  if String.eqb p "/work/pr_diff.txt" then Some (FsFile (Some "+x"%string))
  else if String.eqb p "/etc/passwd" then Some (FsFile (Some "root"%string))
  else if String.eqb p "/work" then Some FsDir
  else None.

Definition sample_resolve (p : string) : option string :=
  if String.eqb p "pr_diff.txt" then Some "/work/pr_diff.txt"%string
  else if String.eqb p "../../etc/passwd" then Some "/etc/passwd"%string
  else Some ("/work/" ++ p)%string.

Lemma read_file_rejects_dotdot_witness :
  str_contains ".." "../../etc/passwd" = true /\
  read_file sample_resolve sample_fs "../../etc/passwd" = EmptyString.
Proof.
  assert (H : str_contains ".." "../../etc/passwd" = true) by (vm_compute; reflexivity).
  split; [exact H|].
  exact (proj2 (read_file_rejects_dotdot sample_resolve sample_fs _ H)).
Defined.

(** X19 (validate_file_path, read_file): a path without [..] that resolves
    to a readable regular file is accepted and read in full; one that
    resolves to a directory or to nothing is rejected and reads as the
    empty string. *)
Theorem read_file_regular resolve fs filepath abs_path :
  str_contains ".." filepath = false ->
  resolve filepath = Some abs_path ->
  (forall content, fs abs_path = Some (FsFile (Some content)) ->
     validate_file_path resolve fs filepath = true /\ read_file resolve fs filepath = content) /\
  ((fs abs_path = Some FsDir \/ fs abs_path = None) ->
     validate_file_path resolve fs filepath = false /\ read_file resolve fs filepath = EmptyString).
Proof.
  intros Hdd Hres. unfold read_file, validate_file_path. rewrite Hres, Hdd. split.
  - intros content Hfs. rewrite Hfs. split; reflexivity.
  - intros [Hfs | Hfs]; rewrite Hfs; split; reflexivity.
Qed.

Lemma read_file_regular_witness :
  read_file sample_resolve sample_fs "pr_diff.txt" = "+x"%string /\
  read_file sample_resolve sample_fs "." = EmptyString.
Proof.
  split.
  - apply (read_file_regular sample_resolve sample_fs "pr_diff.txt" "/work/pr_diff.txt");
      vm_compute; reflexivity.
  - apply (read_file_regular sample_resolve sample_fs "." "/work/.");
      vm_compute; [reflexivity | reflexivity | right; reflexivity].
Defined.
